(** * fast-load.py: the upload engine, embedded and verified

    A shallow embedding of [src/fast-load.py]: the error classifier
    [is_retryable], the backoff step [backoff_sleep], the per-file loop
    [upload_with_retries] and the aggregation done by [main].

    Modelling choices, all of them visible in the definitions below:
    - Python [int] is [Z]; a finite Python [float] is idealised as a
      rational [Q] (compared with [==]), so rounding is left out and the
      values [inf] and [nan], which [float()] also reads, are not
      represented; [str] is [string]; [Optional[T]] is [option T]; the
      headers of a response, a case-insensitive mapping, are a
      [gmap string string] keyed by the lower-cased name.
    - An exception is a value of type [exception]; code that may raise
      returns a sum [exception + A].
    - The Box SDK, the file system, [os.urandom] and [time.sleep] are the
      outside world.  What they answer is given by an [env]; what the
      program asks of them is recorded in a [world].  A call of
      [time.sleep] may return or raise, as the world answers. *)

From Stdlib Require Import ZArith QArith Qpower String Ascii List Lia DecimalString.
From Stdlib Require Strings.Byte.
From stdpp Require Import gmap strings.
From Equations Require Import Equations.
Import ListNotations.

Local Open Scope Z_scope.

(** ** Python built-ins used by the program *)

Module Py.

(** [str(n)] for an [int]. *)
Definition str (n : Z) : string := NilZero.string_of_int (Z.to_int n).

(** Truth value of a [str]: the empty string is falsy. *)
Definition truthy (s : string) : bool :=
  match s with
  | EmptyString => false
  | String _ _ => true
  end.

(** Truth value of an [Optional[str]]. *)
Definition truthy_opt (o : option string) : bool :=
  match o with
  | Some s => truthy s
  | None => false
  end.

(** [s.startswith(p)]. *)
Definition startswith (s p : string) : bool := String.prefix p s.

(** [s.lower()] on the ASCII letters, which is all that the name of an
    HTTP header holds. *)
Definition lower_char (c : ascii) : ascii :=
  let n := nat_of_ascii c in
  if (65 <=? n)%nat && (n <=? 90)%nat then ascii_of_nat (n + 32) else c.

Fixpoint lower (s : string) : string :=
  match s with
  | EmptyString => EmptyString
  | String c s' => String (lower_char c) (lower s')
  end.

End Py.

(** ** Constants (lines 14-18) *)

Definition DIRECT_UPLOAD_MAX : Z := 50 * 1024 * 1024.
Definition DEFAULT_RETRIES : Z := 6.
Definition DEFAULT_BACKOFF : Q := 3 # 4.
Definition DEFAULT_CHUNK : Z := 8 * 1024 * 1024.

(** ** Exceptions

    [BoxAPIException] carries the HTTP [status] and the response [headers]
    ([None] when the SDK gives none).  The SDK hands the headers over as
    the case-insensitive mapping of the [requests] library, which stores
    each header under its lower-cased name: the [gmap] is that store.
    Every other [Exception] is an [OtherException].  Both carry the name of their class, which is what
    [type(e).__name__] reads (a subclass of [BoxAPIException] is still a
    [BoxAPIException] for [isinstance]). *)

Inductive exception : Type :=
| BoxAPIException (cls : string) (status : Z) (headers : option (gmap string string))
| OtherException (cls : string).

(** [headers.get(name)] and [headers[name] = value] on that mapping. *)
Definition headers_get (h : gmap string string) (name : string) : option string :=
  h !! Py.lower name.

Definition headers_set (name value : string) (h : gmap string string)
    : gmap string string :=
  <[Py.lower name := value]> h.

(** The exceptions that lines 66 and 69 raise by themselves. *)
Definition OverflowError : exception := OtherException "OverflowError".
Definition ValueError : exception := OtherException "ValueError".

Definition type_name (e : exception) : string :=
  match e with
  | BoxAPIException cls _ _ => cls
  | OtherException cls => cls
  end.

Definition isinstance_BoxAPIException (e : exception) : bool :=
  match e with
  | BoxAPIException _ _ _ => true
  | OtherException _ => false
  end.

(** [code == n] for [code : Optional[int]]. *)
Definition code_eq (code : option Z) (n : Z) : bool :=
  match code with
  | Some c => c =? n
  | None => false
  end.

(** ** The outside world *)

(** What the program asks of the outside world. *)
Inductive event : Type :=
| EvUploadSmall                    (* upload_small was called *)
| EvUploadLarge (chunk_size : Z)   (* upload_large was called *)
| EvSleep (seconds : Q)            (* time.sleep(seconds) was called and returned *)
| EvSleepRaised (seconds : Q).     (* time.sleep(seconds) was called and raised *)

(** The answers of the outside world to one task.  [k] counts the passes
    through the [try] block of [upload_with_retries], from 0; [n] counts
    the calls of [os.urandom(1)], and so those of [time.sleep], from 0. *)
Record env : Type := {
  stat_size : nat -> exception + Z;
    (* file_path.stat().st_size in pass k, or the exception it raises *)
  folder_upload : nat -> exception + string;
    (* upload_small(...).id in pass k, or the exception raised *)
  chunked_upload : nat -> Z -> exception + string;
    (* upload_large(..., chunk_size).id in pass k, or the exception raised *)
  urandom : nat -> Byte.byte;
    (* os.urandom(1)[0], n-th call *)
  time_sleep : nat -> Q -> option exception
    (* time.sleep(d), n-th call: None when it returns, the exception when
       it raises *)
}.

(** The record of one task's run: passes through the [try] block so far,
    random bytes drawn so far, and the calls made, most recent first. *)
Record world : Type := {
  tries : nat;
  draws : nat;
  log : list event
}.

Definition world0 : world := {| tries := 0; draws := 0; log := [] |}.

Definition enter_try (w : world) : world :=
  {| tries := S (tries w); draws := draws w; log := log w |}.

Definition draw (w : world) : world :=
  {| tries := tries w; draws := S (draws w); log := log w |}.

Definition record (ev : event) (w : world) : world :=
  {| tries := tries w; draws := draws w; log := ev :: log w |}.

(** The durations of the [time.sleep] calls of a log that returned. *)
Fixpoint sleeps (l : list event) : list Q :=
  match l with
  | [] => []
  | EvSleep d :: l' => d :: sleeps l'
  | _ :: l' => sleeps l'
  end.

(** The durations of all the [time.sleep] calls of a log, whether they
    returned or raised. *)
Fixpoint sleep_calls (l : list event) : list Q :=
  match l with
  | [] => []
  | EvSleep d :: l' => d :: sleep_calls l'
  | EvSleepRaised d :: l' => d :: sleep_calls l'
  | _ :: l' => sleep_calls l'
  end.

(** The upload calls in a log. *)
Fixpoint uploads (l : list event) : list event :=
  match l with
  | [] => []
  | EvSleep _ :: l' => uploads l'
  | EvSleepRaised _ :: l' => uploads l'
  | ev :: l' => ev :: uploads l'
  end.

(** ** The engine

    [float] is Python's parser of a [str] into a [float]: [Some q] for the
    finite number read, [None] when it raises [ValueError].  It is a
    built-in of the language, taken here as a parameter.  The texts that
    it reads as [inf] or [nan] have no image in [Q]: a header that holds
    one is outside this model. *)

Section Engine.

Variable float : string -> option Q.

(** *** is_retryable (lines 49-63)

    Lines 55-59: the [Retry-After] header, parsed; [None] when the
    headers are missing or empty, when the header is missing or empty, or
    when [float] raises. *)
Definition retry_after_header (headers : option (gmap string string)) : option Q :=
  let ra :=
    match headers with
    | Some h => if bool_decide (h = ∅) then None else headers_get h "Retry-After"
    | None => None
    end in
  match ra with
  | Some s => if Py.truthy s then float s else None
  | None => None
  end.

Definition is_retryable (e : exception) : bool * option Z * option Q :=
  match e with
  | BoxAPIException _ code headers =>
      if (code =? 409) || (code =? 400) then (false, Some code, None)
      else
        let retry_after := retry_after_header headers in
        if (code =? 429) || ((500 <=? code) && (code <=? 599))
        then (true, Some code, retry_after)
        else (false, Some code, None)
  | OtherException _ => (true, None, None)
  end.

(** *** backoff_sleep (lines 65-69)

    [jitter b] is the value bound to [jitter] on line 68 when
    [os.urandom(1)[0]] is the byte [b]. *)
Definition jitter (b : Byte.byte) : Q :=
  ((3 # 4) + (1 # 2) * (inject_Z (Z.of_N (Byte.to_N b)) / 255))%Q.

(** Line 66: the delay before jitter. *)
Definition delay_of (attempt : Z) (base : Q) (retry_after : option Q) : Q :=
  match retry_after with
  | Some ra => ra
  | None => (base * Qpower 2 (attempt - 1))%Q
  end.

Section Task.

Variable E : env.

(** Line 66 raises [OverflowError] when there is no hint and the integer
    [2 ** (attempt - 1)] is too large to become a [float], that is from
    [2 ** 1024] on; nothing is drawn or slept then. *)
Definition delay_overflows (attempt : Z) (retry_after : option Q) : bool :=
  match retry_after with
  | Some _ => false
  | None => 1024 <=? attempt - 1
  end.

(** Lines 66-69.  The call of [time.sleep] is recorded with the duration
    asked for, as [EvSleep] when it returns and as [EvSleepRaised] when it
    raises; the exception raised, on line 66 or by [time.sleep], is the
    outcome of [backoff_sleep]. *)
Definition backoff_sleep (attempt : Z) (base : Q) (retry_after : option Q)
    (w : world) : (exception + unit) * world :=
  if delay_overflows attempt retry_after then (inl OverflowError, w)
  else
    let delay := delay_of attempt base retry_after in
    let j := jitter (urandom E (draws w)) in
    match time_sleep E (draws w) (delay * j)%Q with
    | Some e => (inl e, record (EvSleepRaised (delay * j)%Q) (draw w))
    | None => (inr tt, record (EvSleep (delay * j)%Q) (draw w))
    end.

(** *** upload_small, upload_large (lines 71-81)

    [upload_small] forwards to the SDK's [folder.upload]; [upload_large]
    stats the file, opens an upload session and the file, and runs the
    SDK's [ChunkedUploader].  The file id returned, or the exception that
    any of these steps raises, is the world's answer for pass [k]. *)
Definition upload_small (k : nat) (w : world) : (exception + string) * world :=
  (folder_upload E k, record EvUploadSmall w).

Definition upload_large (k : nat) (chunk_size : Z) (w : world)
    : (exception + string) * world :=
  (chunked_upload E k chunk_size, record (EvUploadLarge chunk_size) w).

(** *** upload_with_retries (lines 83-110) *)

(** Lines 93-98, the [try] block: the file id, or the exception that
    line 99 catches. *)
Definition try_upload (chunk_size : Z) (w : world) : (exception + string) * world :=
  let k := tries w in
  let w1 := enter_try w in
  match stat_size E k with
  | inl e => (inl e, w1)
  | inr size =>
      if size <=? DIRECT_UPLOAD_MAX
      then upload_small k w1
      else upload_large k chunk_size w1
  end.

(** The triple returned: path, file id, error text. *)
Definition result : Type := string * option string * option string.

(** Line 106: [code or 'n/a']. *)
Definition code_or_na (code : option Z) : string :=
  match code with
  | Some c => if c =? 0 then "n/a" else Py.str c
  | None => "n/a"
  end.

(** The [while True] loop of lines 92-110, from the state where the
    local [attempt] has the given value.  It returns the triple of one of
    the [return] statements, or ends by the exception that [backoff_sleep]
    raises inside the [except] block, which nothing catches.  It recurses
    only after [attempt + 1 <= retries], so [retries - attempt] decreases. *)
Equations? upload_loop (file_path : string) (retries : Z) (base_backoff : Q)
    (chunk_size : Z) (attempt : Z) (w : world) : (exception + result) * world
    by wf (Z.to_nat (retries - attempt)) lt :=
  upload_loop file_path retries base_backoff chunk_size attempt w
    with try_upload chunk_size w := {
    | (inr file_id, w1) := (inr (file_path, Some file_id, None), w1);
    | (inl e, w1) with is_retryable e := {
      | (retryable, code, retry_after)
          with isinstance_BoxAPIException e && code_eq code 409 := {
        | true :=
            (inr (file_path, None, Some "skipped: 409 Conflict (name exists)"%string), w1);
        | false with isinstance_BoxAPIException e && code_eq code 400 := {
          | true := (inr (file_path, None, Some "skipped: 400 Bad Request"%string), w1);
          | false with retryable := {
            | false :=
                (inr (file_path, None,
                      Some ("failed: HTTP " +:+ code_or_na code +:+ " " +:+ type_name e)),
                 w1);
            | true with Z_gt_le_dec (attempt + 1) retries := {
              | left _ :=
                  (inr (file_path, None,
                        Some ("failed after " +:+ Py.str retries +:+ " retries: "
                              +:+ type_name e)), w1);
              | right _ with backoff_sleep (attempt + 1) base_backoff retry_after w1 := {
                | (inl raised, w2) := (inl raised, w2);
                | (inr _, w2) :=
                    upload_loop file_path retries base_backoff chunk_size (attempt + 1)
                      w2 } } } } } } }.
Proof. lia. Qed.

Definition upload_with_retries (file_path : string) (retries : Z)
    (base_backoff : Q) (chunk_size : Z) (w : world) : (exception + result) * world :=
  upload_loop file_path retries base_backoff chunk_size 0 w.

End Task.

(** *** should_skip, iter_files (lines 37-47)

    [rglob] lists what [root.rglob("*")] yields: for each path its text,
    its last component and whether it is a regular file. *)
Record entry : Type := {
  entry_path : string;
  entry_name : string;
  entry_is_file : bool
}.

Definition should_skip (p : entry) : bool :=
  if negb (entry_is_file p) then true
  else
    let name := entry_name p in
    negb (Py.truthy name) || Py.startswith name ".DS_Store".

Definition iter_files (rglob : list entry) : list entry :=
  List.filter (fun p => negb (should_skip p)) rglob.

(** *** main (lines 112-157)

    [args] is the parsed command line, [host] the machine the program
    runs on: the resolved root and what it is, whether [make_client]
    raises, the directory listing, and the answers of the outside world
    to the upload of each path.  [--backoff] is any finite float, negative
    ones included; [inf] and [nan], which [argparse] also accepts, have no
    image in [Q]. *)
Record args : Type := {
  local_folder : string;
  box_folder_id : string;
  workers : Z;
  retries : Z;
  backoff : Q;
  chunk : Z
}.

Record host : Type := {
  root : string;
  root_exists : bool;
  root_is_dir : bool;
  make_client_raises : option exception;
  rglob : list entry;
  task_env : string -> env
}.

(** How the loop of lines 145-154 counts a result. *)
Inductive category : Type := Ok | Skipped | Failed.

Definition is_None {A : Type} (o : option A) : bool :=
  match o with
  | Some _ => false
  | None => true
  end.

(** The three conditions of lines 146, 149 and 152, in this order. *)
Definition categorize (r : result) : category :=
  let '(_, file_id, err) := r in
  if is_None err && Py.truthy_opt file_id then Ok
  else if Py.truthy_opt err
          && match err with
             | Some s => Py.startswith s "skipped"
             | None => false
             end
  then Skipped
  else Failed.

(** The counters [ok], [skipped], [failed] of lines 137-139. *)
Record summary : Type := {
  ok : Z;
  skipped : Z;
  failed : Z
}.

Definition summary0 : summary := {| ok := 0; skipped := 0; failed := 0 |}.

(** [str(x)] for an [Optional[str]], as an f-string prints it. *)
Definition str_opt (o : option string) : string :=
  match o with
  | Some s => s
  | None => "None"
  end.

(** One turn of the [for] loop (lines 146-154): the counters and the
    lines printed so far, oldest first. *)
Definition count_result (st : summary * list string) (r : result)
    : summary * list string :=
  let '(s, out) := st in
  let '(path, file_id, err) := r in
  match categorize r with
  | Ok =>
      ({| ok := ok s + 1; skipped := skipped s; failed := failed s |},
       out ++ ["[OK] " +:+ path +:+ " -> file_id=" +:+ str_opt file_id])
  | Skipped =>
      ({| ok := ok s; skipped := skipped s + 1; failed := failed s |},
       out ++ ["[SKIP] " +:+ path +:+ " -> " +:+ str_opt err])
  | Failed =>
      ({| ok := ok s; skipped := skipped s; failed := failed s + 1 |},
       out ++ ["[ERR] " +:+ path +:+ " -> "
               +:+ (if Py.truthy_opt err then str_opt err else "unknown error")])
  end.

(** Line 141-142, [task], run from a fresh record of the world: the triple
    it returns, or the exception that escapes [upload_with_retries]. *)
Definition task (a : args) (h : host) (p : entry) : (exception + result) * world :=
  upload_with_retries (task_env h (entry_path p)) (entry_path p)
    (retries a) (backoff a) (chunk a) world0.

(** Line 144: the size of the pool. *)
Definition max_workers (a : args) : Z := Z.max 1 (workers a).

(** The [for] loop of lines 145-154 over what [ex.map] yields, in the
    order of the files: it counts the results one by one, and at the first
    task that raised it ends by that exception, which [ex.map] raises
    again in the thread of [main]. *)
Fixpoint count_results (outcomes : list (exception + result))
    (st : summary * list string) : summary * list string * option exception :=
  match outcomes with
  | [] => (st, None)
  | inl e :: _ => (st, Some e)
  | inr r :: rest => count_results rest (count_result st r)
  end.

(** The records of the tasks whose outcome the loop took: all of them, or
    those up to the first one that raised (a task after that one may have
    run or have been cancelled before it started). *)
Fixpoint taken (runs : list ((exception + result) * world)) : list world :=
  match runs with
  | [] => []
  | (inl _, w) :: _ => [w]
  | (inr _, w) :: rest => w :: taken rest
  end.

(** What the pool leaves: the counters, the lines printed, the exception
    of the task that ended the loop if there is one, and the records of
    the tasks taken. *)
Record pool : Type := {
  counters : summary;
  printed : list string;
  raised : option exception;
  pool_worlds : list world
}.

(** Lines 144-154.  The tasks share no state of the program, and each
    runs against the answers the world gives for its own path, whatever
    the number of threads.  The counters are updated by the thread of
    [main] alone, as it takes the results one by one. *)
Definition run_pool (a : args) (h : host) (files : list entry) : pool :=
  let runs := map (task a h) files in
  let '(s, out, e) := count_results (map fst runs) (summary0, []) in
  {| counters := s; printed := out; raised := e; pool_worlds := taken runs |}.

(** What a run of [main] leaves: the lines it prints on stdout and
    stderr, the value returned (or the exception that escapes), and the
    record of each task whose outcome it took. *)
Record run : Type := {
  stdout : list string;
  stderr : list string;
  status : exception + Z;
  task_worlds : list world
}.

Definition main (a : args) (h : host) : run :=
  if negb (root_exists h) || negb (root_is_dir h) then
    {| stdout := [];
       stderr := ["invalid local folder: " +:+ root h];
       status := inr 2;
       task_worlds := [] |}
  else
    match make_client_raises h with
    | Some e => {| stdout := []; stderr := []; status := inl e; task_worlds := [] |}
    | None =>
        let files := iter_files (rglob h) in
        match files with
        | [] =>
            {| stdout := ["no files to upload"%string];
               stderr := [];
               status := inr 0;
               task_worlds := [] |}
        | _ :: _ =>
            let banner :=
              "Uploading " +:+ Py.str (Z.of_nat (length files))
              +:+ " files to Box folder " +:+ box_folder_id a
              +:+ " with " +:+ Py.str (workers a) +:+ " workers..." in
            let p := run_pool a h files in
            let s := counters p in
            match raised p with
            | Some e =>
                {| stdout := banner :: printed p;
                   stderr := [];
                   status := inl e;
                   task_worlds := pool_worlds p |}
            | None =>
                {| stdout :=
                     banner :: printed p
                     ++ ["Done. ok=" +:+ Py.str (ok s) +:+ " skipped="
                         +:+ Py.str (skipped s) +:+ " failed=" +:+ Py.str (failed s)];
                   stderr := [];
                   status := inr (if failed s =? 0 then 0 else 1);
                   task_worlds := pool_worlds p |}
            end
        end
    end.

End Engine.

(** ** Vocabulary of the properties *)

(** The retryable statuses of line 60. *)
Definition transient_status (code : Z) : Prop :=
  code = 429 \/ 500 <= code <= 599.

(** Every pass through the [try] block raises an error that
    [is_retryable] finds retryable. *)
Definition always_transient (float : string -> option Q) (E : env)
    (chunk_size : Z) : Prop :=
  forall w, exists e w1,
    try_upload E chunk_size w = (inl e, w1)
    /\ fst (fst (is_retryable float e)) = true.

(** What the tasks of [main] give, in the order of the files, and the
    results among them. *)
Definition outcomes_of (float : string -> option Q) (a : args) (h : host)
    : list (exception + result) :=
  map fst (map (task float a h) (iter_files (rglob h))).

Fixpoint returned (outcomes : list (exception + result)) : list result :=
  match outcomes with
  | [] => []
  | inl _ :: rest => returned rest
  | inr r :: rest => r :: returned rest
  end.

Definition results_of (float : string -> option Q) (a : args) (h : host)
    : list result :=
  returned (outcomes_of float a h).

(** The outcomes that the loop of [main] takes: those before the first
    task that raised. *)
Fixpoint counted (outcomes : list (exception + result)) : list result :=
  match outcomes with
  | [] => []
  | inl _ :: _ => []
  | inr r :: rest => r :: counted rest
  end.

Definition is_result (o : exception + result) : Prop :=
  match o with
  | inl _ => False
  | inr _ => True
  end.

Definition is_failed (r : result) : bool :=
  match categorize r with
  | Failed => true
  | _ => false
  end.

(** The tag that [main] prints for a category. *)
Definition tag (c : category) : string :=
  match c with
  | Ok => "[OK] "
  | Skipped => "[SKIP] "
  | Failed => "[ERR] "
  end.

Definition has_category (c : category) (r : result) : bool :=
  match categorize r, c with
  | Ok, Ok | Skipped, Skipped | Failed, Failed => true
  | _, _ => false
  end.

(** [time.sleep] returns whenever it is asked a duration between 0 and
    [limit]. *)
Definition sleep_accepts (E : env) (limit : Q) : Prop :=
  forall n d, (0 <= d)%Q -> (d <= limit)%Q -> time_sleep E n d = None.

(** A hint that [backoff_sleep] can sleep on: none, or one that is not
    negative and stays within [limit] once scaled by the largest jitter. *)
Definition hint_within (limit : Q) (retry_after : option Q) : Prop :=
  match retry_after with
  | None => True
  | Some hint => (0 <= hint)%Q /\ ((5 # 4) * hint <= limit)%Q
  end.

(** The delays of the retries 1 to [retries] without hint can be computed
    and slept on: the base is not negative, line 66 does not overflow, and
    the largest delay stays within [limit] once scaled by the largest
    jitter. *)
Definition backoff_within (base : Q) (retries : Z) (limit : Q) : Prop :=
  (0 <= base)%Q
  /\ retries <= 1024
  /\ ((5 # 4) * (base * Qpower 2 (retries - 1)) <= limit)%Q.

(** Every pass raises a retryable error whose hint, if any, is within
    [limit]. *)
Definition always_transient_within (float : string -> option Q) (E : env)
    (chunk_size : Z) (limit : Q) : Prop :=
  forall w, exists e w1 code retry_after,
    try_upload E chunk_size w = (inl e, w1)
    /\ is_retryable float e = (true, code, retry_after)
    /\ hint_within limit retry_after.

(** Every pass raises a retryable error that carries no hint. *)
Definition always_transient_no_hint (float : string -> option Q) (E : env)
    (chunk_size : Z) : Prop :=
  forall w, exists e w1 code,
    try_upload E chunk_size w = (inl e, w1)
    /\ is_retryable float e = (true, code, None).

(** The first [k] passes after [w0] raise a retryable error whose hint, if
    any, is within [limit], and the next one uploads the file as
    [file_id]. *)
Definition succeeds_at (float : string -> option Q) (E : env) (chunk_size : Z)
    (limit : Q) (w0 : world) (k : nat) (file_id : string) : Prop :=
  (forall w, (tries w < tries w0 + k)%nat ->
     exists e w1 code retry_after,
       try_upload E chunk_size w = (inl e, w1)
       /\ is_retryable float e = (true, code, retry_after)
       /\ hint_within limit retry_after)
  /\ (forall w, tries w = (tries w0 + k)%nat ->
       exists w1, try_upload E chunk_size w = (inr file_id, w1)).

(** The file cannot be examined: [stat] raises in every pass, and not a
    [BoxAPIException]. *)
Definition stat_always_fails (E : env) : Prop :=
  forall k, exists cls, stat_size E k = inl (OtherException cls).

(** The sleeps of [n] retries without a hint, oldest first, after the
    local [attempt] reached the given value and [d] random bytes were
    drawn: each lasts [base * 2^(attempt' - 1)] times the jitter of the byte
    it draws, where [attempt'] is the value of [attempt] at that retry. *)
Fixpoint schedule (E : env) (base : Q) (attempt : Z) (d : nat) (n : nat) : list Q :=
  match n with
  | O => []
  | S k =>
      (delay_of (attempt + 1) base None * jitter (urandom E d))%Q
      :: schedule E base (attempt + 1) (S d) k
  end.

(** ** Concrete worlds to run the definitions *)

(** [float] reads the decimal integers "0" to "3" and raises on anything
    else. *)
Definition float_small (s : string) : option Q :=
  if String.eqb s "0" then Some 0%Q
  else if String.eqb s "1" then Some 1%Q
  else if String.eqb s "2" then Some 2%Q
  else if String.eqb s "3" then Some 3%Q
  else None.

(** A [time.sleep] like CPython's on a clock of 64-bit nanoseconds: it
    raises [ValueError] on a negative duration, [OverflowError] on one
    beyond 2^63 nanoseconds (about 292 years), and returns otherwise. *)
Definition time_sleep_limit : Q := 9223372036854775807 # 1000000000.

Definition cpython_time_sleep (n : nat) (d : Q) : option exception :=
  if Qle_bool 0 d
  then if Qle_bool d time_sleep_limit then None else Some OverflowError
  else if Qle_bool (- time_sleep_limit) d then Some ValueError else Some OverflowError.

(** Headers that hold [Retry-After: 2]. *)
Definition headers_2 : gmap string string := headers_set "Retry-After" "2" ∅.

Definition retry_after_2 : option (gmap string string) := Some headers_2.

(** The same with a [Date] header. *)
Definition headers_2_date : gmap string string :=
  headers_set "Date" "Wed, 04 Nov 2026 10:00:00 GMT" headers_2.

(** The world in which every upload raises [e] and every random byte is
    [b]; the file has [size] bytes. *)
Definition always_raising (e : exception) (size : Z) (b : Byte.byte) : env :=
  {| stat_size := fun _ => inr size;
     folder_upload := fun _ => inl e;
     chunked_upload := fun _ _ => inl e;
     urandom := fun _ => b;
     time_sleep := cpython_time_sleep |}.

(** The errors of the examples. *)
Definition conflict : exception := BoxAPIException "BoxAPIException" 409 None.
Definition bad_request : exception := BoxAPIException "BoxAPIException" 400 None.
Definition forbidden : exception := BoxAPIException "BoxAPIException" 403 retry_after_2.
Definition unavailable : exception := BoxAPIException "BoxAPIException" 503 retry_after_2.
Definition connection_error : exception := OtherException "ConnectionError".

(** The world in which the first [n] passes raise [e] and the next ones
    upload the file as "id-1". *)
Definition failing_first (n : nat) (e : exception) (size : Z) (b : Byte.byte) : env :=
  {| stat_size := fun _ => inr size;
     folder_upload := fun k => if (k <? n)%nat then inl e else inr "id-1"%string;
     chunked_upload := fun k _ => if (k <? n)%nat then inl e else inr "id-1"%string;
     urandom := fun _ => b;
     time_sleep := cpython_time_sleep |}.

(** A world where the file is gone: [stat] raises [FileNotFoundError]. *)
Definition file_gone : env :=
  {| stat_size := fun _ => inl (OtherException "FileNotFoundError");
     folder_upload := fun _ => inr "id-1"%string;
     chunked_upload := fun _ _ => inr "id-1"%string;
     urandom := fun _ => Byte.x00;
     time_sleep := cpython_time_sleep |}.

Definition args0 : args :=
  {| local_folder := "photos";
     box_folder_id := "0";
     workers := 8;
     retries := 2;
     backoff := DEFAULT_BACKOFF;
     chunk := DEFAULT_CHUNK |}.

(** The same command line with [--backoff -1]. *)
Definition args_negative_backoff : args :=
  {| local_folder := "photos";
     box_folder_id := "0";
     workers := 8;
     retries := 2;
     backoff := (-1)%Q;
     chunk := DEFAULT_CHUNK |}.

(** A root with three files, a [.DS_Store] and a directory: the first file
    uploads, the second meets a conflict, the third never gets through. *)
Definition host3 : host :=
  {| root := "/home/u/photos";
     root_exists := true;
     root_is_dir := true;
     make_client_raises := None;
     rglob :=
       [ {| entry_path := "/home/u/photos/a.jpg"; entry_name := "a.jpg";
            entry_is_file := true |};
         {| entry_path := "/home/u/photos/.DS_Store"; entry_name := ".DS_Store";
            entry_is_file := true |};
         {| entry_path := "/home/u/photos/b.jpg"; entry_name := "b.jpg";
            entry_is_file := true |};
         {| entry_path := "/home/u/photos/sub"; entry_name := "sub";
            entry_is_file := false |};
         {| entry_path := "/home/u/photos/sub/c.jpg"; entry_name := "c.jpg";
            entry_is_file := true |} ];
     task_env := fun path =>
       if String.eqb path "/home/u/photos/a.jpg"
       then failing_first 0 connection_error 10 Byte.x00
       else if String.eqb path "/home/u/photos/b.jpg"
       then always_raising conflict 10 Byte.x00
       else always_raising connection_error 10 Byte.x00 |}.

(** The same root where the second file is the one that never gets
    through. *)
Definition host3_middle : host :=
  {| root := "/home/u/photos";
     root_exists := true;
     root_is_dir := true;
     make_client_raises := None;
     rglob := rglob host3;
     task_env := fun path =>
       if String.eqb path "/home/u/photos/b.jpg"
       then always_raising connection_error 10 Byte.x00
       else failing_first 0 connection_error 10 Byte.x00 |}.

(** The same root with nothing but a [.DS_Store] and a directory in it. *)
Definition host0 : host :=
  {| root := "/home/u/photos";
     root_exists := true;
     root_is_dir := true;
     make_client_raises := None;
     rglob :=
       [ {| entry_path := "/home/u/photos/.DS_Store"; entry_name := ".DS_Store";
            entry_is_file := true |};
         {| entry_path := "/home/u/photos/sub"; entry_name := "sub";
            entry_is_file := false |} ];
     task_env := fun _ => always_raising connection_error 10 Byte.x00 |}.

(** A machine where the root given does not exist. *)
Definition host_missing : host :=
  {| root := "/home/u/nowhere";
     root_exists := false;
     root_is_dir := false;
     make_client_raises := None;
     rglob := [];
     task_env := fun _ => always_raising connection_error 10 Byte.x00 |}.

(** ** The rest of the program: defaults and credentials *)

(** Line 15, [DEFAULT_WORKERS], as a function of what [os.cpu_count()]
    returns ([None] when the count is unknown). *)
Definition DEFAULT_WORKERS (cpu_count : option Z) : Z :=
  Z.min 8
    ((match cpu_count with
      | Some n => if n =? 0 then 4 else n
      | None => 4
      end) * 4).

(** What [load_jwt] and [make_client] raise: the [RuntimeError]s of lines
    25 and 29 with their message, or an exception of the SDK or of [eval]
    that passes through. *)
Inductive startup_error : Type :=
| RuntimeError (message : string)
| Propagated (e : exception).

(** The exception that escapes, as [main] sees it. *)
Definition exception_of (err : startup_error) : exception :=
  match err with
  | RuntimeError _ => OtherException "RuntimeError"
  | Propagated e => e
  end.

(** What [load_jwt] and [make_client] ask of the outside world.  [V] is
    the type of the value that [eval] gives, [A] the type of a [JWTAuth],
    [C] the type of a client of the SDK. *)
Record credentials (V A C : Type) : Type := {
  getenv_JWT_CONFIG_BASE_64 : option string;
    (* os.getenv("JWT_CONFIG_BASE_64") *)
  b64decode_utf8 : string -> exception + string;
    (* base64.b64decode(b64).decode("utf-8"), or the exception raised *)
  py_eval : string -> exception + V;
    (* eval(json_str), or the exception raised *)
  from_settings_file : string -> exception + A;
    (* JWTAuth.from_settings_file(path) *)
  from_settings_dictionary : V -> exception + A;
    (* JWTAuth.from_settings_dictionary(d) *)
  new_client : A -> exception + C;
    (* Client(auth) *)
  client_as_user : C -> string -> exception + C
    (* client.as_user(as_user), or the exception raised *)
}.

Arguments getenv_JWT_CONFIG_BASE_64 {V A C} _.
Arguments b64decode_utf8 {V A C} _ _.
Arguments py_eval {V A C} _ _.
Arguments from_settings_file {V A C} _ _.
Arguments from_settings_dictionary {V A C} _ _.
Arguments new_client {V A C} _ _.
Arguments client_as_user {V A C} _ _ _.

Definition propagate {A : Type} (r : exception + A) : startup_error + A :=
  match r with
  | inl e => inl (Propagated e)
  | inr a => inr a
  end.

(** Lines 20-30.  A value that passed the truth test is a [Some]; its
    text is read with [default]. *)
Definition load_jwt {V A C : Type} (W : credentials V A C)
    (jwt_config_file : option string) : startup_error + A :=
  if Py.truthy_opt jwt_config_file
  then propagate (from_settings_file W (default ""%string jwt_config_file))
  else
    let b64 := getenv_JWT_CONFIG_BASE_64 W in
    if negb (Py.truthy_opt b64)
    then inl (RuntimeError "Provide --jwt-config or set JWT_CONFIG_BASE_64.")
    else
      match b64decode_utf8 W (default ""%string b64) with
      | inl _ => inl (RuntimeError "JWT_CONFIG_BASE_64 is not valid base64 JSON")
      | inr json_str =>
          match py_eval W json_str with
          | inl e => inl (Propagated e)
          | inr d => propagate (from_settings_dictionary W d)
          end
      end.

(** Lines 32-35. *)
Definition make_client {V A C : Type} (W : credentials V A C)
    (jwt_config_file as_user : option string) : startup_error + C :=
  match load_jwt W jwt_config_file with
  | inl err => inl err
  | inr auth =>
      match new_client W auth with
      | inl e => inl (Propagated e)
      | inr client =>
          if Py.truthy_opt as_user
          then propagate (client_as_user W client (default ""%string as_user))
          else inr client
      end
  end.

(** What [main] sees of [make_client]: the exception that escapes, if any. *)
Definition make_client_outcome {V A C : Type} (W : credentials V A C)
    (jwt_config_file as_user : option string) : option exception :=
  match make_client W jwt_config_file as_user with
  | inl err => Some (exception_of err)
  | inr _ => None
  end.

(** Concrete worlds for the credentials: the value of [eval], the
    [JWTAuth] and the client are the texts they were made from; as in the
    SDK, [as_user] wants a user object and raises on a text. *)
Definition credentials0 (env_var : option string)
    : credentials string string string :=
  {| getenv_JWT_CONFIG_BASE_64 := env_var;
     b64decode_utf8 := fun s =>
       if String.eqb s "e30=" then inr "{}"%string
       else inl (OtherException "Error");
     py_eval := fun s => inr s;
     from_settings_file := fun path => inr ("file:" +:+ path);
     from_settings_dictionary := fun d => inr ("dict:" +:+ d);
     new_client := fun auth => inr ("client:" +:+ auth);
     client_as_user := fun _ _ => inl (OtherException "AttributeError") |}.

(** A machine with a valid root and no credentials at all. *)
Definition host_no_credentials : host :=
  {| root := "/home/u/photos";
     root_exists := true;
     root_is_dir := true;
     make_client_raises := make_client_outcome (credentials0 None) None None;
     rglob := rglob host3;
     task_env := task_env host3 |}.

(** * Properties *)

(** ** The classifier *)

Section Classifier.

Variable float : string -> option Q.

Lemma retry_after_header_None : retry_after_header float None = None.
Proof. reflexivity. Qed.

Lemma retry_after_header_absent (h : gmap string string) :
  headers_get h "Retry-After" = None ->
  retry_after_header float (Some h) = None.
Proof.
  intros Hno. unfold retry_after_header.
  case_bool_decide; [reflexivity | now rewrite Hno].
Qed.

Lemma retry_after_header_empty (h : gmap string string) :
  headers_get h "Retry-After" = Some ""%string ->
  retry_after_header float (Some h) = None.
Proof.
  intros Hs. unfold retry_after_header.
  case_bool_decide; [reflexivity | now rewrite Hs].
Qed.

Lemma retry_after_header_present (h : gmap string string) (s : string) :
  headers_get h "Retry-After" = Some s ->
  s <> ""%string ->
  retry_after_header float (Some h) = float s.
Proof.
  intros Hs Hne. unfold retry_after_header.
  case_bool_decide as Hempty.
  - subst h. unfold headers_get in Hs. rewrite lookup_empty in Hs. discriminate.
  - rewrite Hs. destruct s; [congruence | reflexivity].
Qed.

Lemma transient_status_test (code : Z) :
  (code =? 429) || ((500 <=? code) && (code <=? 599)) = true <-> transient_status code.
Proof. unfold transient_status. lia. Qed.

(** C3.  The verdict of [is_retryable], case by case: status 409 and
    status 400 are not retryable; status 429 and the statuses 500 to 599
    are retryable and carry the parsed [Retry-After] header ([float] of
    its text when the header is there and not empty, nothing when it is
    empty or missing); every other status is not retryable; an exception that is
    not a [BoxAPIException] is retryable, with no status and no hint. *)
Theorem is_retryable_verdicts (cls : string) (code : Z)
    (headers : option (gmap string string)) :
  is_retryable float (BoxAPIException cls 409 headers) = (false, Some 409, None)
  /\ is_retryable float (BoxAPIException cls 400 headers) = (false, Some 400, None)
  /\ (transient_status code ->
      is_retryable float (BoxAPIException cls code headers)
      = (true, Some code, retry_after_header float headers)
      /\ (forall h s, headers = Some h -> headers_get h "Retry-After" = Some s ->
          s <> ""%string -> retry_after_header float headers = float s)
      /\ (forall h, headers = Some h -> headers_get h "Retry-After" = Some ""%string ->
          retry_after_header float headers = None)
      /\ (forall h, headers = Some h -> headers_get h "Retry-After" = None ->
          retry_after_header float headers = None)
      /\ (headers = None -> retry_after_header float headers = None))
  /\ (code <> 409 -> code <> 400 -> ~ transient_status code ->
      is_retryable float (BoxAPIException cls code headers) = (false, Some code, None))
  /\ is_retryable float (OtherException cls) = (true, None, None).
Proof.
  split; [reflexivity | ]. split; [reflexivity | ]. split; [ | split; [ | reflexivity]].
  - intros Htransient. split; [ | split; [ | split; [ | split]]].
    + apply transient_status_test in Htransient as Htest. unfold is_retryable.
      destruct ((code =? 409) || (code =? 400)) eqn:Hterm.
      * unfold transient_status in Htransient. lia.
      * now rewrite Htest.
    + intros h s -> Hs Hne. now apply retry_after_header_present.
    + intros h -> Hs. now apply retry_after_header_empty.
    + intros h -> Hno. now apply retry_after_header_absent.
    + now intros ->.
  - intros H409 H400 Hnot. unfold is_retryable.
    replace ((code =? 409) || (code =? 400)) with false by lia.
    destruct ((code =? 429) || ((500 <=? code) && (code <=? 599))) eqn:Htr;
      [ | reflexivity].
    apply transient_status_test in Htr. contradiction.
Qed.

(** A retryable verdict is never one of the two early returns of lines
    101 and 103. *)
Lemma retryable_not_early (e : exception) (code : option Z) (ra : option Q) :
  is_retryable float e = (true, code, ra) ->
  isinstance_BoxAPIException e && code_eq code 409 = false
  /\ isinstance_BoxAPIException e && code_eq code 400 = false.
Proof.
  destruct e as [cls c h | cls]; cbn.
  - destruct ((c =? 409) || (c =? 400)) eqn:Hterm; [discriminate | ].
    destruct ((c =? 429) || ((500 <=? c) && (c <=? 599))); [ | discriminate].
    intros [= <- _]. cbn. lia.
  - intros [= <- _]. now cbn.
Qed.

(** A verdict that is not retryable comes from a [BoxAPIException] and
    carries its status. *)
Lemma terminal_is_box (e : exception) (code : option Z) (ra : option Q) :
  is_retryable float e = (false, code, ra) ->
  exists cls c h,
    e = BoxAPIException cls c h /\ code = Some c /\ ra = None
    /\ ~ transient_status c.
Proof.
  destruct e as [cls c h | cls]; cbn; [ | discriminate].
  destruct ((c =? 409) || (c =? 400)) eqn:Hterm.
  - intros [= <- <-]. exists cls, c, h. unfold transient_status.
    repeat split; lia.
  - destruct ((c =? 429) || ((500 <=? c) && (c <=? 599))) eqn:Htr; [discriminate | ].
    intros [= <- <-]. exists cls, c, h. repeat split.
    rewrite <- transient_status_test. congruence.
Qed.

(** C9.  A verdict that is not retryable carries no hint, whatever the
    headers of the response; a verdict that carries a hint is retryable
    and comes from status 429 or 500 to 599. *)
Theorem terminal_verdict_has_no_hint (e : exception) :
  (fst (fst (is_retryable float e)) = false -> snd (is_retryable float e) = None)
  /\ (forall q, snd (is_retryable float e) = Some q ->
      fst (fst (is_retryable float e)) = true
      /\ exists cls code h,
           e = BoxAPIException cls code h /\ transient_status code).
Proof.
  split.
  - destruct (is_retryable float e) as [[retryable code] ra] eqn:Hv. cbn.
    intros ->. apply terminal_is_box in Hv as (_ & _ & _ & _ & _ & -> & _).
    reflexivity.
  - intros q. destruct e as [cls c h | cls]; cbn; [ | discriminate].
    destruct ((c =? 409) || (c =? 400)); [discriminate | ].
    destruct ((c =? 429) || ((500 <=? c) && (c <=? 599))) eqn:Htr; [ | discriminate].
    intros _. split; [reflexivity | ].
    exists cls, c, h. split; [reflexivity | ]. now apply transient_status_test.
Qed.

End Classifier.

(** ** The backoff *)

Lemma byte_value_bound (b : Byte.byte) : 0 <= Z.of_N (Byte.to_N b) <= 255.
Proof. pose proof (Byte.to_N_bounded b). lia. Qed.

(** The jitter lies in the closed interval from 0.75 to 1.25. *)
Lemma jitter_range (b : Byte.byte) : (3 # 4 <= jitter b)%Q /\ (jitter b <= 5 # 4)%Q.
Proof.
  pose proof (byte_value_bound b) as Hb. unfold jitter.
  generalize dependent (Z.of_N (Byte.to_N b)). intros z Hz.
  unfold Qle, Qplus, Qmult, Qdiv, Qinv, inject_Z. cbn. lia.
Qed.

(** It stays below 1.25 for every byte but 255. *)
Lemma jitter_below_upper_bound (b : Byte.byte) :
  (jitter b < 5 # 4)%Q <-> b <> Byte.xff.
Proof.
  assert (Hval : (jitter b < 5 # 4)%Q <-> Z.of_N (Byte.to_N b) < 255).
  { unfold jitter. generalize (Z.of_N (Byte.to_N b)). intros z.
    unfold Qlt, Qplus, Qmult, Qdiv, Qinv, inject_Z. cbn. lia. }
  rewrite Hval. split.
  - intros Hlt ->. cbn in Hlt. lia.
  - intros Hne. pose proof (byte_value_bound b) as Hb.
    destruct (Z.eq_dec (Z.of_N (Byte.to_N b)) 255) as [Heq | ]; [ | lia].
    exfalso. apply Hne.
    assert (Hn : Byte.to_N b = 255%N) by lia.
    pose proof (Byte.of_to_N b) as Hof. rewrite Hn in Hof. cbn in Hof.
    congruence.
Qed.

(** With no hint the delay before jitter is [base * 2^(attempt - 1)], and
    [base] for the first retry; with a hint it is the hint. *)
Lemma delay_of_cases (attempt : Z) (base hint : Q) :
  delay_of attempt base None = (base * Qpower 2 (attempt - 1))%Q
  /\ (delay_of 1 base None == base)%Q
  /\ delay_of attempt base (Some hint) = hint.
Proof.
  split; [reflexivity | ]. split; [ | reflexivity].
  unfold delay_of. change (Qpower 2 (1 - 1)) with 1%Q. apply Qmult_1_r.
Qed.

(** When line 66 overflows, [backoff_sleep] raises [OverflowError] and
    leaves the world as it was. *)
Lemma backoff_sleep_overflow (E : env) (attempt : Z) (base : Q)
    (retry_after : option Q) (w : world) :
  delay_overflows attempt retry_after = true ->
  backoff_sleep E attempt base retry_after w = (inl OverflowError, w).
Proof. intros Hover. unfold backoff_sleep. now rewrite Hover. Qed.

(** Otherwise it draws one byte and calls [time.sleep] once, with the
    delay of line 66 times the jitter, and ends as that call does. *)
Lemma backoff_sleep_call (E : env) (attempt : Z) (base : Q)
    (retry_after : option Q) (w : world) :
  delay_overflows attempt retry_after = false ->
  backoff_sleep E attempt base retry_after w
  = match time_sleep E (draws w)
            (delay_of attempt base retry_after * jitter (urandom E (draws w)))%Q with
    | Some e =>
        (inl e,
         record (EvSleepRaised (delay_of attempt base retry_after
                                * jitter (urandom E (draws w)))%Q) (draw w))
    | None =>
        (inr tt,
         record (EvSleep (delay_of attempt base retry_after
                          * jitter (urandom E (draws w)))%Q) (draw w))
    end.
Proof. intros Hover. unfold backoff_sleep. now rewrite Hover. Qed.

(** What [backoff_sleep] leaves in the record, however it ends: no pass,
    no upload call, at most one byte drawn and one call of [time.sleep]. *)
Lemma backoff_sleep_world (E : env) (attempt : Z) (base : Q)
    (retry_after : option Q) (w : world) :
  tries (snd (backoff_sleep E attempt base retry_after w)) = tries w
  /\ uploads (log (snd (backoff_sleep E attempt base retry_after w))) = uploads (log w)
  /\ (exists l,
        log (snd (backoff_sleep E attempt base retry_after w)) = l ++ log w
        /\ (length l <= 1)%nat)
  /\ (length (sleep_calls (log (snd (backoff_sleep E attempt base retry_after w))))
      + draws w
      = length (sleep_calls (log w))
        + draws (snd (backoff_sleep E attempt base retry_after w)))%nat.
Proof.
  unfold backoff_sleep. destruct (delay_overflows attempt retry_after).
  - cbn. split; [reflexivity | ]. split; [reflexivity | ]. split; [ | lia].
    exists []. split; [reflexivity | cbn; lia].
  - destruct (time_sleep E (draws w) _); cbn;
      (split; [reflexivity | ]); (split; [reflexivity | ]); (split; [ | lia]);
      eexists [_]; (split; [reflexivity | cbn; lia]).
Qed.

(** When it returns, it has drawn one byte and slept once. *)
Lemma backoff_sleep_inr (E : env) (attempt : Z) (base : Q)
    (retry_after : option Q) (w w2 : world) (u : unit) :
  backoff_sleep E attempt base retry_after w = (inr u, w2) ->
  w2 = record (EvSleep (delay_of attempt base retry_after
                        * jitter (urandom E (draws w)))%Q) (draw w)
  /\ delay_overflows attempt retry_after = false
  /\ time_sleep E (draws w)
       (delay_of attempt base retry_after * jitter (urandom E (draws w)))%Q
     = None.
Proof.
  unfold backoff_sleep. destruct (delay_overflows attempt retry_after); [discriminate | ].
  destruct (time_sleep E (draws w) _); [discriminate | ].
  intros [= _ <-]. repeat split.
Qed.

(** When it raises, the exception is the [OverflowError] of line 66 or
    the one that [time.sleep] raised. *)
Lemma backoff_sleep_inl (E : env) (attempt : Z) (base : Q)
    (retry_after : option Q) (w w2 : world) (raised : exception) :
  backoff_sleep E attempt base retry_after w = (inl raised, w2) ->
  (delay_overflows attempt retry_after = true /\ raised = OverflowError /\ w2 = w)
  \/ (delay_overflows attempt retry_after = false
      /\ time_sleep E (draws w)
           (delay_of attempt base retry_after * jitter (urandom E (draws w)))%Q
         = Some raised
      /\ w2 = record (EvSleepRaised (delay_of attempt base retry_after
                                     * jitter (urandom E (draws w)))%Q) (draw w)).
Proof.
  unfold backoff_sleep. destruct (delay_overflows attempt retry_after).
  - intros [= <- <-]. now left.
  - destruct (time_sleep E (draws w) _) as [e | ]; [ | discriminate].
    intros [= <- <-]. right. repeat split.
Qed.

Lemma Qpower_2_ge_1 (n : Z) : 0 <= n -> (1 <= Qpower 2 n)%Q.
Proof.
  intros Hn. pattern n. apply natlike_ind; [discriminate | | exact Hn].
  intros x Hx IH. unfold Z.succ. rewrite Qpower_plus by discriminate.
  change (Qpower 2 1) with 2%Q.
  apply Qle_trans with (Qpower 2 x * 1)%Q.
  - rewrite Qmult_1_r. exact IH.
  - apply Qmult_le_l; [ | discriminate].
    apply Qlt_le_trans with 1%Q; [reflexivity | exact IH].
Qed.

Lemma Qpower_2_le (a b : Z) : a <= b -> (Qpower 2 a <= Qpower 2 b)%Q.
Proof.
  intros Hab. replace b with (a + (b - a)) by lia.
  rewrite Qpower_plus by discriminate.
  rewrite <- (Qmult_1_r (Qpower 2 a)) at 1.
  apply Qmult_le_l; [apply Qpower_0_lt; reflexivity | ].
  apply Qpower_2_ge_1. lia.
Qed.

(** Within the bounds of [backoff_within], the delay of each retry up to
    [retries] is not negative and can be slept on. *)
Lemma backoff_within_delay (base : Q) (retries : Z) (limit : Q) (attempt : Z) :
  backoff_within base retries limit ->
  attempt <= retries ->
  delay_overflows attempt None = false
  /\ (0 <= delay_of attempt base None)%Q
  /\ ((5 # 4) * delay_of attempt base None <= limit)%Q.
Proof.
  intros (Hbase & Hmax & Hlimit) Hle. unfold delay_overflows, delay_of.
  split; [lia | ]. split.
  - apply Qmult_le_0_compat; [exact Hbase | apply Qpower_0_le; discriminate].
  - eapply Qle_trans; [ | exact Hlimit].
    apply Qmult_le_l; [reflexivity | ].
    rewrite !(Qmult_comm base). apply Qmult_le_compat_r; [ | exact Hbase].
    apply Qpower_2_le. lia.
Qed.

(** A delay that is not negative gives a duration between 0 and 1.25 times
    the delay. *)
Lemma duration_range (delay : Q) (b : Byte.byte) :
  (0 <= delay)%Q ->
  (0 <= delay * jitter b)%Q /\ (delay * jitter b <= (5 # 4) * delay)%Q
  /\ ((3 # 4) * delay <= delay * jitter b)%Q.
Proof.
  intros Hdelay. pose proof (jitter_range b) as [Hlo Hhi].
  assert (Hjpos : (0 <= jitter b)%Q)
    by (apply Qle_trans with (3 # 4)%Q; [discriminate | exact Hlo]).
  split; [now apply Qmult_le_0_compat | ]. split.
  - rewrite (Qmult_comm (5 # 4)). apply Qmult_le_compat_nonneg; split;
      [exact Hdelay | apply Qle_refl | exact Hjpos | exact Hhi].
  - rewrite Qmult_comm. apply Qmult_le_compat_nonneg; split;
      [exact Hdelay | apply Qle_refl | discriminate | exact Hlo].
Qed.

(** So [backoff_sleep] returns when [time.sleep] accepts the durations up
    to [limit], line 66 does not overflow, and the delay is within
    bounds. *)
Lemma backoff_sleep_returns (E : env) (limit : Q) (attempt : Z) (base : Q)
    (retry_after : option Q) (w : world) :
  sleep_accepts E limit ->
  delay_overflows attempt retry_after = false ->
  (0 <= delay_of attempt base retry_after)%Q ->
  ((5 # 4) * delay_of attempt base retry_after <= limit)%Q ->
  backoff_sleep E attempt base retry_after w
  = (inr tt,
     record (EvSleep (delay_of attempt base retry_after
                      * jitter (urandom E (draws w)))%Q) (draw w)).
Proof.
  intros Haccepts Hover Hpos Hlimit. rewrite backoff_sleep_call by exact Hover.
  destruct (duration_range (delay_of attempt base retry_after)
              (urandom E (draws w)) Hpos) as (Hd0 & Hd1 & _).
  rewrite Haccepts; [reflexivity | exact Hd0 | ].
  eapply Qle_trans; [exact Hd1 | exact Hlimit].
Qed.

Lemma hint_within_delay (limit : Q) (attempt : Z) (base hint : Q) :
  hint_within limit (Some hint) ->
  delay_overflows attempt (Some hint) = false
  /\ (0 <= delay_of attempt base (Some hint))%Q
  /\ ((5 # 4) * delay_of attempt base (Some hint) <= limit)%Q.
Proof. intros [Hpos Hlimit]. repeat split; assumption. Qed.

Lemma cpython_time_sleep_accepts (E : env) :
  time_sleep E = cpython_time_sleep -> sleep_accepts E time_sleep_limit.
Proof.
  intros Heq n d Hpos Hlimit. rewrite Heq. unfold cpython_time_sleep.
  apply Qle_bool_iff in Hpos, Hlimit. now rewrite Hpos, Hlimit.
Qed.

(** C2, at the byte 255.  When [os.urandom] gives the byte 255 the jitter
    is exactly 1.25, so, unless line 66 overflows, [backoff_sleep] asks
    [time.sleep] for exactly 1.25 times the delay of line 66, with or
    without a hint; for a positive delay (here the first retry with the
    default base, a sleep that returns) this is not below that bound. *)
Theorem jitter_reaches_upper_bound (e : exception) (size attempt : Z) (base : Q)
    (retry_after : option Q) (w : world) :
  (jitter Byte.xff == 5 # 4)%Q
  /\ ~ (jitter Byte.xff < 5 # 4)%Q
  /\ (if delay_overflows attempt retry_after
      then sleep_calls (log (snd (backoff_sleep (always_raising e size Byte.xff) attempt
                                    base retry_after w)))
           = sleep_calls (log w)
      else exists d,
          sleep_calls (log (snd (backoff_sleep (always_raising e size Byte.xff) attempt
                                   base retry_after w)))
          = d :: sleep_calls (log w)
          /\ (d == (5 # 4) * delay_of attempt base retry_after)%Q)
  /\ (exists d,
       sleeps (log (snd (backoff_sleep (always_raising e size Byte.xff) 1 DEFAULT_BACKOFF
                           None world0)))
       = [d]
       /\ ~ (d < (5 # 4) * delay_of 1 DEFAULT_BACKOFF None)%Q).
Proof.
  assert (Hj : (jitter Byte.xff == 5 # 4)%Q) by reflexivity.
  split; [exact Hj | ]. split; [ | split].
  - rewrite Hj. apply Qlt_irrefl.
  - destruct (delay_overflows attempt retry_after) eqn:Hover.
    + now rewrite backoff_sleep_overflow.
    + rewrite backoff_sleep_call by exact Hover.
      eexists. split.
      * destruct (time_sleep _ _ _); reflexivity.
      * cbn. rewrite Hj. ring.
  - eexists. split; [reflexivity | ]. vm_compute. discriminate.
Qed.

(** ** The per-file loop *)

(** An error text that starts with "f" is counted as a failure by [main]. *)
Lemma categorize_failed_text (path s : string) :
  categorize (path, None, Some (String "f"%char s)) = Failed.
Proof. reflexivity. Qed.

Section Loop.

Variable float : string -> option Q.
Variable E : env.
Variables (file_path : string) (retries : Z) (base_backoff : Q) (chunk_size : Z).

(** One turn of the [while True] loop, as the source reads. *)
Lemma upload_loop_step (attempt : Z) (w : world) :
  upload_loop float E file_path retries base_backoff chunk_size attempt w =
  match try_upload E chunk_size w with
  | (inr file_id, w1) => (inr (file_path, Some file_id, None), w1)
  | (inl e, w1) =>
      let '(retryable, code, retry_after) := is_retryable float e in
      if isinstance_BoxAPIException e && code_eq code 409
      then (inr (file_path, None, Some "skipped: 409 Conflict (name exists)"%string), w1)
      else if isinstance_BoxAPIException e && code_eq code 400
      then (inr (file_path, None, Some "skipped: 400 Bad Request"%string), w1)
      else if negb retryable
      then (inr (file_path, None,
                 Some ("failed: HTTP " +:+ code_or_na code +:+ " " +:+ type_name e)), w1)
      else if attempt + 1 >? retries
      then (inr (file_path, None,
                 Some ("failed after " +:+ Py.str retries +:+ " retries: "
                       +:+ type_name e)), w1)
      else
        match backoff_sleep E (attempt + 1) base_backoff retry_after w1 with
        | (inl raised, w2) => (inl raised, w2)
        | (inr _, w2) =>
            upload_loop float E file_path retries base_backoff chunk_size (attempt + 1) w2
        end
  end.
Proof.
  rewrite upload_loop_equation_1 at 1.
  destruct (try_upload E chunk_size w) as [[e | file_id] w1]; cbn; [ | reflexivity].
  destruct (is_retryable float e) as [[retryable code] retry_after]; cbn.
  destruct (isinstance_BoxAPIException e && code_eq code 409); cbn; [reflexivity | ].
  destruct (isinstance_BoxAPIException e && code_eq code 400); cbn; [reflexivity | ].
  destruct retryable; cbn; [ | reflexivity].
  destruct (Z_gt_le_dec (attempt + 1) retries) as [Hgt | Hle]; cbn.
  - replace (attempt + 1 >? retries) with true by lia. reflexivity.
  - replace (attempt + 1 >? retries) with false by lia.
    destruct (backoff_sleep E (attempt + 1) base_backoff retry_after w1)
      as [[raised | u] w2]; reflexivity.
Qed.

(** What one pass through the [try] block leaves in the record. *)
Lemma try_upload_world (w : world) :
  tries (snd (try_upload E chunk_size w)) = S (tries w)
  /\ draws (snd (try_upload E chunk_size w)) = draws w
  /\ sleeps (log (snd (try_upload E chunk_size w))) = sleeps (log w)
  /\ (length (uploads (log (snd (try_upload E chunk_size w))))
      <= S (length (uploads (log w))))%nat.
Proof.
  unfold try_upload.
  destruct (stat_size E (tries w)) as [e | size]; cbn; [auto | ].
  destruct (size <=? DIRECT_UPLOAD_MAX); cbn; auto.
Qed.

(** C5.  In a pass where the file has [size] bytes, the [try] block calls
    [upload_small] when [size <= DIRECT_UPLOAD_MAX] and [upload_large],
    with the chunk size given, when [size > DIRECT_UPLOAD_MAX]; a file of
    exactly [DIRECT_UPLOAD_MAX = 52428800] bytes goes to [upload_small]. *)
Theorem strategy_by_size (size : Z) (w : world) :
  stat_size E (tries w) = inr size ->
  (size <= DIRECT_UPLOAD_MAX ->
     try_upload E chunk_size w = upload_small E (tries w) (enter_try w)
     /\ log (snd (try_upload E chunk_size w)) = EvUploadSmall :: log w)
  /\ (size > DIRECT_UPLOAD_MAX ->
     try_upload E chunk_size w = upload_large E (tries w) chunk_size (enter_try w)
     /\ log (snd (try_upload E chunk_size w)) = EvUploadLarge chunk_size :: log w)
  /\ (size = DIRECT_UPLOAD_MAX ->
     log (snd (try_upload E chunk_size w)) = EvUploadSmall :: log w)
  /\ DIRECT_UPLOAD_MAX = 52428800.
Proof.
  intros Hstat. unfold try_upload. rewrite Hstat.
  split; [ | split; [ | split]].
  - intros Hle. apply Z.leb_le in Hle. rewrite Hle. now split.
  - intros Hgt. apply Z.gt_lt, Z.leb_gt in Hgt. rewrite Hgt. now split.
  - intros ->. reflexivity.
  - reflexivity.
Qed.

(** C8.  When a pass raises a [BoxAPIException] of status 409, the loop
    returns at once with the text "skipped: 409 Conflict (name exists)",
    which [main] counts as skipped: the record of the world is the one
    left by that pass, so no sleep and no further pass follows. *)
Theorem conflict_is_skipped_at_once (attempt : Z) (w w1 : world) (cls : string)
    (headers : option (gmap string string)) :
  try_upload E chunk_size w = (inl (BoxAPIException cls 409 headers), w1) ->
  upload_loop float E file_path retries base_backoff chunk_size attempt w
  = (inr (file_path, None, Some "skipped: 409 Conflict (name exists)"%string), w1)
  /\ categorize (file_path, None, Some "skipped: 409 Conflict (name exists)"%string)
     = Skipped
  /\ tries w1 = S (tries w)
  /\ draws w1 = draws w
  /\ sleeps (log w1) = sleeps (log w)
  /\ sleep_calls (log w1) = sleep_calls (log w).
Proof.
  intros Htry.
  assert (Hloop : upload_loop float E file_path retries base_backoff chunk_size attempt w
                  = (inr (file_path, None,
                          Some "skipped: 409 Conflict (name exists)"%string), w1)).
  { rewrite upload_loop_step, Htry. reflexivity. }
  pose proof (try_upload_world w) as (Ht & Hd & Hs & _).
  rewrite Htry in Ht, Hd, Hs. cbn in Ht, Hd, Hs.
  split; [exact Hloop | ]. split; [reflexivity | ].
  split; [exact Ht | ]. split; [exact Hd | ]. split; [exact Hs | ].
  unfold try_upload in Htry.
  destruct (stat_size E (tries w)) as [e0 | size].
  - injection Htry as _ <-. reflexivity.
  - destruct (size <=? DIRECT_UPLOAD_MAX); injection Htry as _ <-; reflexivity.
Qed.

(** C1, as the code has it.  When a pass raises an error that
    [is_retryable] finds not retryable, with a status other than 409, the
    loop returns at once.  For a status other than 400 the text is
    "failed: HTTP <status> <class>", which [main] counts as failed.  For
    status 400 the text is "skipped: 400 Bad Request", which [main] counts
    as skipped. *)
Theorem terminal_error_outcome (attempt : Z) (w w1 : world) (e : exception)
    (code : Z) :
  try_upload E chunk_size w = (inl e, w1) ->
  fst (is_retryable float e) = (false, Some code) ->
  code <> 409 ->
  snd (upload_loop float E file_path retries base_backoff chunk_size attempt w) = w1
  /\ (code <> 400 ->
      fst (upload_loop float E file_path retries base_backoff chunk_size attempt w)
      = inr (file_path, None,
             Some ("failed: HTTP " +:+ code_or_na (Some code) +:+ " " +:+ type_name e))
      /\ categorize
           (file_path, None,
            Some ("failed: HTTP " +:+ code_or_na (Some code) +:+ " " +:+ type_name e))
         = Failed)
  /\ (code = 400 ->
      fst (upload_loop float E file_path retries base_backoff chunk_size attempt w)
      = inr (file_path, None, Some "skipped: 400 Bad Request"%string)
      /\ categorize (file_path, None, Some "skipped: 400 Bad Request"%string)
         = Skipped).
Proof.
  intros Htry Hv H409.
  destruct (is_retryable float e) as [[retryable c] ra] eqn:Hret.
  cbn in Hv. injection Hv as -> ->.
  destruct (terminal_is_box float e _ _ Hret) as (cls & c & h & -> & [= <-] & -> & _).
  rewrite upload_loop_step, Htry, Hret. cbn.
  replace (code =? 409) with false by lia.
  destruct (code =? 400) eqn:H400; cbn.
  - repeat split; intros; try reflexivity; lia.
  - repeat split; intros; try reflexivity; lia.
Qed.

(** One turn of the loop when the pass raises a retryable error. *)
Lemma upload_loop_retry (attempt : Z) (w w1 : world) (e : exception)
    (code : option Z) (ra : option Q) :
  try_upload E chunk_size w = (inl e, w1) ->
  is_retryable float e = (true, code, ra) ->
  upload_loop float E file_path retries base_backoff chunk_size attempt w
  = if attempt + 1 >? retries
    then (inr (file_path, None,
               Some ("failed after " +:+ Py.str retries +:+ " retries: "
                     +:+ type_name e)), w1)
    else
      match backoff_sleep E (attempt + 1) base_backoff ra w1 with
      | (inl raised, w2) => (inl raised, w2)
      | (inr _, w2) =>
          upload_loop float E file_path retries base_backoff chunk_size (attempt + 1) w2
      end.
Proof.
  intros Htry Hv.
  destruct (retryable_not_early float e code ra Hv) as [H409 H400].
  rewrite upload_loop_step, Htry, Hv, H409, H400. reflexivity.
Qed.

(** Within the bounds, the sleep before a retry that is left returns. *)
Lemma backoff_sleep_within (limit : Q) (attempt : Z) (ra : option Q) (w : world) :
  sleep_accepts E limit ->
  backoff_within base_backoff retries limit ->
  hint_within limit ra ->
  attempt <= retries ->
  backoff_sleep E attempt base_backoff ra w
  = (inr tt,
     record (EvSleep (delay_of attempt base_backoff ra
                      * jitter (urandom E (draws w)))%Q) (draw w)).
Proof.
  intros Haccepts Hbase Hhint Hle.
  assert (Hdelay : delay_overflows attempt ra = false
                   /\ (0 <= delay_of attempt base_backoff ra)%Q
                   /\ ((5 # 4) * delay_of attempt base_backoff ra <= limit)%Q).
  { destruct ra as [hint | ].
    - now apply hint_within_delay.
    - now apply (backoff_within_delay base_backoff retries). }
  destruct Hdelay as (Hover & Hpos & Hlimit).
  now apply (backoff_sleep_returns E limit).
Qed.

(** The loop entered with [attempt <= retries], in a world where every
    pass fails with a retryable error and every sleep returns: it makes
    one pass and one sleep for each value of [attempt] up to [retries],
    one more pass, and gives up. *)
Lemma upload_loop_exhausts (limit : Q) (n : nat) :
  sleep_accepts E limit ->
  backoff_within base_backoff retries limit ->
  always_transient_within float E chunk_size limit ->
  forall (attempt : Z) (w : world),
    attempt <= retries ->
    Z.to_nat (retries - attempt) = n ->
    exists e w',
      upload_loop float E file_path retries base_backoff chunk_size attempt w
      = (inr (file_path, None,
              Some ("failed after " +:+ Py.str retries +:+ " retries: "
                    +:+ type_name e)), w')
      /\ tries w' = (tries w + n + 1)%nat
      /\ length (sleeps (log w')) = (length (sleeps (log w)) + n)%nat
      /\ (length (uploads (log w')) <= length (uploads (log w)) + n + 1)%nat.
Proof.
  intros Haccepts Hbase Hall. induction n as [ | n IH]; intros attempt w Hle Hn;
    destruct (Hall w) as (e & w1 & code & ra & Htry & Hv & Hhint);
    pose proof (try_upload_world w) as (Ht & _ & Hs & Hu);
    rewrite Htry in Ht, Hs, Hu; cbn in Ht, Hs, Hu;
    rewrite (upload_loop_retry attempt w w1 e code ra Htry Hv).
  - replace (attempt + 1 >? retries) with true by lia.
    exists e, w1. rewrite Ht, Hs. split; [reflexivity | ]. repeat split; lia.
  - replace (attempt + 1 >? retries) with false by lia.
    rewrite (backoff_sleep_within limit) by (assumption || lia).
    destruct (IH (attempt + 1)
                (record (EvSleep (delay_of (attempt + 1) base_backoff ra
                                  * jitter (urandom E (draws w1)))%Q) (draw w1)))
      as (e' & w' & Hres & Htries & Hsleeps & Huploads); [lia | lia | ].
    exists e', w'. split; [exact Hres | ].
    cbn in Htries, Hsleeps, Huploads. rewrite Htries, Hsleeps, Ht, Hs.
    repeat split; lia.
Qed.

End Loop.

(** C4, where the code leaves it.  Every attempt fails with a retryable
    error ([ConnectionError]).  With [retries = 2] and [--backoff -1] the
    loop makes one pass, asks [time.sleep] for a negative duration and
    ends by its [ValueError]: no second pass, no result.  With
    [retries = 1030] and [--backoff 0] it makes 1025 passes and 1024 sleeps
    and ends by the [OverflowError] of line 66, where [2 ** 1024] is
    multiplied by a float: no "failed after 1030 retries". *)
Theorem backoff_exception_ends_the_loop :
  always_transient float_small (always_raising connection_error 10 Byte.x00)
    DEFAULT_CHUNK
  /\ (exists w d,
        upload_with_retries float_small (always_raising connection_error 10 Byte.x00)
          "/home/u/photos/b.jpg" 2 (-1)%Q DEFAULT_CHUNK world0
        = (inl ValueError, w)
        /\ tries w = 1%nat
        /\ uploads (log w) = [EvUploadSmall]
        /\ sleeps (log w) = []
        /\ sleep_calls (log w) = [d]
        /\ (d == - (3 # 4))%Q)
  /\ (exists w,
        upload_with_retries float_small (always_raising connection_error 10 Byte.x00)
          "/home/u/photos/b.jpg" 1030 0%Q DEFAULT_CHUNK world0
        = (inl OverflowError, w)
        /\ tries w = 1025%nat
        /\ length (sleeps (log w)) = 1024%nat
        /\ length (sleep_calls (log w)) = 1024%nat).
Proof.
  split; [ | split].
  - intros w. eexists _, _. split; reflexivity.
  - eexists _, _. split; [vm_compute; reflexivity | ].
    repeat split.
  - eexists. split; [vm_compute; reflexivity | ].
    split; [reflexivity | ]. split; vm_compute; reflexivity.
Qed.

(** ** The aggregation of [main] *)

(** One result moves exactly one counter, by one, the counter of its
    category. *)
Lemma count_result_one (s : summary) (out : list string) (r : result) :
  match categorize r with
  | Ok =>
      ok (fst (count_result (s, out) r)) = ok s + 1
      /\ skipped (fst (count_result (s, out) r)) = skipped s
      /\ failed (fst (count_result (s, out) r)) = failed s
  | Skipped =>
      ok (fst (count_result (s, out) r)) = ok s
      /\ skipped (fst (count_result (s, out) r)) = skipped s + 1
      /\ failed (fst (count_result (s, out) r)) = failed s
  | Failed =>
      ok (fst (count_result (s, out) r)) = ok s
      /\ skipped (fst (count_result (s, out) r)) = skipped s
      /\ failed (fst (count_result (s, out) r)) = failed s + 1
  end.
Proof.
  destruct r as [[path file_id] err]. unfold count_result.
  destruct (categorize (path, file_id, err)); cbn; auto.
Qed.

Lemma count_result_total (st : summary * list string) (r : result) :
  ok (fst (count_result st r)) + skipped (fst (count_result st r))
  + failed (fst (count_result st r))
  = ok (fst st) + skipped (fst st) + failed (fst st) + 1.
Proof.
  destruct st as [s out]. pose proof (count_result_one s out r) as H.
  destruct (categorize r); destruct H as (Hok & Hskipped & Hfailed);
    cbn [fst]; lia.
Qed.

Lemma fold_count_total (results : list result) (st : summary * list string) :
  ok (fst (fold_left count_result results st))
  + skipped (fst (fold_left count_result results st))
  + failed (fst (fold_left count_result results st))
  = ok (fst st) + skipped (fst st) + failed (fst st) + Z.of_nat (length results).
Proof.
  revert st. induction results as [ | r results IH]; intros st; cbn [fold_left length].
  - lia.
  - rewrite IH, count_result_total. lia.
Qed.

(** The counter [failed] counts the results of category [Failed]. *)
Lemma fold_count_failed (results : list result) (st : summary * list string) :
  failed (fst (fold_left count_result results st))
  = failed (fst st)
    + Z.of_nat (length (List.filter is_failed results)).
Proof.
  revert st. induction results as [ | r results IH]; intros st; cbn [fold_left List.filter].
  - cbn. lia.
  - rewrite IH. destruct st as [s out]. unfold is_failed at 2.
    pose proof (count_result_one s out r) as H.
    destruct (categorize r); destruct H as (Hok & Hskipped & Hfailed);
      cbn [fst length]; lia.
Qed.

Lemma no_failed_iff (results : list result) :
  length (List.filter is_failed results) = 0%nat
  <-> Forall (fun r => categorize r <> Failed) results.
Proof.
  induction results as [ | r results IH]; cbn [List.filter].
  - split; [constructor | reflexivity].
  - unfold is_failed at 1. destruct (categorize r) eqn:Hcat; cbn [length].
    + rewrite IH. split.
      * intros Hall. constructor; [congruence | exact Hall].
      * intros Hall. now inversion Hall.
    + rewrite IH. split.
      * intros Hall. constructor; [congruence | exact Hall].
      * intros Hall. now inversion Hall.
    + split; [discriminate | ]. intros Hall. inversion Hall. congruence.
Qed.

(** The loop of [main] folds [count_result] over the outcomes it takes,
    those before the first task that raised. *)
Lemma count_results_fold (outcomes : list (exception + result))
    (st : summary * list string) :
  fst (count_results outcomes st) = fold_left count_result (counted outcomes) st.
Proof.
  revert st. induction outcomes as [ | [e | r] outcomes IH]; intros st; cbn;
    [reflexivity | reflexivity | apply IH].
Qed.

(** It ends without an exception exactly when every task returned. *)
Lemma count_results_None (outcomes : list (exception + result))
    (st : summary * list string) :
  snd (count_results outcomes st) = None <-> Forall is_result outcomes.
Proof.
  revert st. induction outcomes as [ | [e | r] outcomes IH]; intros st; cbn.
  - split; [constructor | reflexivity].
  - split; [discriminate | ]. intros Hall. inversion Hall as [ | ? ? Hhead _].
    destruct Hhead.
  - rewrite IH. split.
    + intros Hall. constructor; [exact I | exact Hall].
    + intros Hall. now inversion Hall.
Qed.

(** The outcomes taken are no more than the tasks, and all of them when
    every task returned. *)
Lemma counted_length (outcomes : list (exception + result)) :
  (length (counted outcomes) <= length outcomes)%nat.
Proof.
  induction outcomes as [ | [e | r] outcomes IH]; cbn; lia.
Qed.

Lemma counted_all (outcomes : list (exception + result)) :
  Forall is_result outcomes ->
  counted outcomes = returned outcomes
  /\ length (returned outcomes) = length outcomes
  /\ outcomes = map inr (returned outcomes).
Proof.
  induction 1 as [ | [e | r] outcomes Hhead Hall (IHc & IHl & IHm)]; cbn.
  - repeat split.
  - destruct Hhead.
  - rewrite IHc, IHl, <- IHm. repeat split.
Qed.

(** When the outcomes taken are fewer than the tasks, a task raised. *)
Lemma counted_short (outcomes : list (exception + result)) :
  (length (counted outcomes) < length outcomes)%nat -> ~ Forall is_result outcomes.
Proof.
  intros Hshort Hall. destruct (counted_all outcomes Hall) as (Hc & Hl & _).
  rewrite Hc, Hl in Hshort. lia.
Qed.

Section Main.

Variable float : string -> option Q.

(** The four things the pool leaves. *)
Lemma run_pool_fields (a : args) (h : host) (files : list entry) :
  counters (run_pool float a h files)
  = fst (fst (count_results (map fst (map (task float a h) files)) (summary0, [])))
  /\ printed (run_pool float a h files)
     = snd (fst (count_results (map fst (map (task float a h) files)) (summary0, [])))
  /\ raised (run_pool float a h files)
     = snd (count_results (map fst (map (task float a h) files)) (summary0, []))
  /\ pool_worlds (run_pool float a h files) = taken (map (task float a h) files).
Proof.
  unfold run_pool.
  destruct (count_results (map fst (map (task float a h) files)) (summary0, []))
    as [[s out] e].
  repeat split.
Qed.

(** The pool ends without an exception exactly when every task returned. *)
Lemma run_pool_raised (a : args) (h : host) :
  raised (run_pool float a h (iter_files (rglob h))) = None
  <-> Forall is_result (outcomes_of float a h).
Proof.
  destruct (run_pool_fields a h (iter_files (rglob h))) as (_ & _ & -> & _).
  apply count_results_None.
Qed.

(** The counters after the pool are the fold over the outcomes taken. *)
Lemma run_pool_counters (a : args) (h : host) :
  counters (run_pool float a h (iter_files (rglob h)))
  = fst (fold_left count_result (counted (outcomes_of float a h)) (summary0, [])).
Proof.
  destruct (run_pool_fields a h (iter_files (rglob h))) as (-> & _).
  now rewrite count_results_fold.
Qed.

(** Once the files are listed, [main] ends as the pool does: by the
    exception of a task, or with 0 or 1 after the counter [failed]. *)
Lemma main_status (a : args) (h : host) :
  root_exists h = true ->
  root_is_dir h = true ->
  make_client_raises h = None ->
  status (main float a h)
  = match raised (run_pool float a h (iter_files (rglob h))) with
    | Some e => inl e
    | None =>
        inr (if failed (counters (run_pool float a h (iter_files (rglob h)))) =? 0
             then 0 else 1)
    end.
Proof.
  intros Hexists Hdir Hclient. unfold main.
  rewrite Hexists, Hdir, Hclient. cbn [negb orb].
  destruct (iter_files (rglob h)) as [ | p files] eqn:Hfiles; [reflexivity | ].
  destruct (raised (run_pool float a h (p :: files))); reflexivity.
Qed.

(** When there is a file to upload, [main] leaves the records of the pool,
    and, when no task raised, prints the counters on the last line. *)
Lemma main_runs_pool (a : args) (h : host) :
  root_exists h = true ->
  root_is_dir h = true ->
  make_client_raises h = None ->
  iter_files (rglob h) <> [] ->
  task_worlds (main float a h) = pool_worlds (run_pool float a h (iter_files (rglob h)))
  /\ (raised (run_pool float a h (iter_files (rglob h))) = None ->
      List.last (stdout (main float a h)) ""%string
      = "Done. ok=" +:+ Py.str (ok (counters (run_pool float a h (iter_files (rglob h)))))
        +:+ " skipped="
        +:+ Py.str (skipped (counters (run_pool float a h (iter_files (rglob h)))))
        +:+ " failed="
        +:+ Py.str (failed (counters (run_pool float a h (iter_files (rglob h)))))).
Proof.
  intros Hexists Hdir Hclient Hfiles. unfold main.
  rewrite Hexists, Hdir, Hclient. cbn [negb orb].
  destruct (iter_files (rglob h)) as [ | p files]; [contradiction | ].
  destruct (raised (run_pool float a h (p :: files))) as [e | ];
    cbn [task_worlds stdout]; (split; [reflexivity | ]).
  - discriminate.
  - intros _. rewrite app_comm_cons. apply last_last.
Qed.

(** C7.  When [main] gets as far as listing the files (the root is a
    directory and the client is made), it returns a status exactly when
    every task returned, that is when the set of tasks is processed to the
    end; and then the status is 0 or 1, and it is 0 exactly when the
    counter [failed] is 0, that is when no result is counted as failed. *)
Theorem exit_status_reflects_failures (a : args) (h : host) :
  root_exists h = true ->
  root_is_dir h = true ->
  make_client_raises h = None ->
  ((exists c, status (main float a h) = inr c)
   <-> Forall is_result (outcomes_of float a h))
  /\ (Forall is_result (outcomes_of float a h) ->
      (status (main float a h) = inr 0 \/ status (main float a h) = inr 1)
      /\ (status (main float a h) = inr 0
          <-> failed (counters (run_pool float a h (iter_files (rglob h)))) = 0)
      /\ (status (main float a h) = inr 0
          <-> Forall (fun r => categorize r <> Failed) (results_of float a h))).
Proof.
  intros Hexists Hdir Hclient.
  rewrite (main_status a h Hexists Hdir Hclient).
  pose proof (run_pool_raised a h) as Hraised.
  split.
  - rewrite <- Hraised.
    destruct (raised (run_pool float a h (iter_files (rglob h)))) as [e | ].
    + split; [intros [c [=]] | discriminate].
    + split; [reflexivity | intros _; eexists; reflexivity].
  - intros Hall.
    assert (Hcount : failed (counters (run_pool float a h (iter_files (rglob h)))) = 0
                     <-> Forall (fun r => categorize r <> Failed) (results_of float a h)).
    { rewrite run_pool_counters. unfold results_of.
      destruct (counted_all _ Hall) as (-> & _).
      rewrite fold_count_failed. cbn [fst summary0 failed].
      rewrite <- no_failed_iff. lia. }
    apply Hraised in Hall. rewrite Hall.
    destruct (failed (counters (run_pool float a h (iter_files (rglob h)))) =? 0)
      eqn:Hzero.
    + apply Z.eqb_eq in Hzero. split; [now left | ]. split.
      * now split.
      * split; [intros _; now apply Hcount | reflexivity].
    + apply Z.eqb_neq in Hzero. split; [now right | ]. split.
      * split; [discriminate | contradiction].
      * split; [discriminate | ]. intros Hnone. apply Hcount in Hnone. contradiction.
Qed.

(** C10.  When the listing of the root leaves no file to upload, [main]
    runs no task (so no upload is tried), prints "no files to upload" and
    returns 0. *)
Theorem no_files_no_uploads (a : args) (h : host) :
  root_exists h = true ->
  root_is_dir h = true ->
  make_client_raises h = None ->
  iter_files (rglob h) = [] ->
  main float a h
  = {| stdout := ["no files to upload"%string];
       stderr := [];
       status := inr 0;
       task_worlds := [] |}.
Proof.
  intros Hexists Hdir Hclient Hfiles. unfold main.
  rewrite Hexists, Hdir, Hclient, Hfiles. reflexivity.
Qed.

End Main.

(** C6, where the code leaves it.  Three files are submitted with
    [--backoff -1]; the second one never gets through, so its task ends by
    the [ValueError] of [time.sleep] and gives no result.  [main] has
    counted the first file only when [ex.map] raises that exception again:
    it prints no line for the other two files and no last line, and ends
    by the exception with the counters at 1 + 0 + 0, not 3.  (The third
    task returned a result, which nothing counts.) *)
Theorem task_exception_ends_main :
  length (iter_files (rglob host3_middle)) = 3%nat
  /\ outcomes_of float_small args_negative_backoff host3_middle
     = [ inr ("/home/u/photos/a.jpg", Some "id-1", None);
         inl ValueError;
         inr ("/home/u/photos/sub/c.jpg", Some "id-1", None) ]%string
  /\ stdout (main float_small args_negative_backoff host3_middle)
     = [ "Uploading 3 files to Box folder 0 with 8 workers...";
         "[OK] /home/u/photos/a.jpg -> file_id=id-1" ]%string
  /\ status (main float_small args_negative_backoff host3_middle) = inl ValueError
  /\ counters (run_pool float_small args_negative_backoff host3_middle
                 (iter_files (rglob host3_middle)))
     = {| ok := 1; skipped := 0; failed := 0 |}
  /\ map tries (task_worlds (main float_small args_negative_backoff host3_middle))
     = [1; 1]%nat.
Proof.
  split; [reflexivity | ]. split; [vm_compute; reflexivity | ].
  split; [vm_compute; reflexivity | ]. split; [vm_compute; reflexivity | ].
  split; vm_compute; reflexivity.
Qed.

(** * The properties at work on concrete worlds *)

Example run_three_files :
  stdout (main float_small args0 host3)
  = [ "Uploading 3 files to Box folder 0 with 8 workers...";
      "[OK] /home/u/photos/a.jpg -> file_id=id-1";
      "[SKIP] /home/u/photos/b.jpg -> skipped: 409 Conflict (name exists)";
      "[ERR] /home/u/photos/sub/c.jpg -> failed after 2 retries: ConnectionError";
      "Done. ok=1 skipped=1 failed=1" ]%string
  /\ status (main float_small args0 host3) = inr 1
  /\ map tries (task_worlds (main float_small args0 host3)) = [1; 1; 3]%nat.
Proof. vm_compute. repeat split. Qed.

(** Scenario A of the specification: three files that upload at the first
    pass. *)
Example scenario_all_succeed :
  let h :=
    {| root := root host3; root_exists := true; root_is_dir := true;
       make_client_raises := None; rglob := rglob host3;
       task_env := fun _ => failing_first 0 connection_error 10 Byte.x00 |} in
  counters (run_pool float_small args0 h (iter_files (rglob h)))
  = {| ok := 3; skipped := 0; failed := 0 |}
  /\ status (main float_small args0 h) = inr 0.
Proof. vm_compute. split; reflexivity. Qed.

(** Scenario B: two passes meet a 503 with [Retry-After: 2], the third
    uploads; three passes, two sleeps of 2 * 0.75 seconds. *)
Example scenario_two_transient_failures :
  fst (upload_with_retries float_small (failing_first 2 unavailable 10 Byte.x00)
         "a.jpg" DEFAULT_RETRIES DEFAULT_BACKOFF DEFAULT_CHUNK world0)
  = inr ("a.jpg"%string, Some "id-1"%string, None)
  /\ tries (snd (upload_with_retries float_small (failing_first 2 unavailable 10 Byte.x00)
                   "a.jpg" DEFAULT_RETRIES DEFAULT_BACKOFF DEFAULT_CHUNK world0))
     = 3%nat
  /\ map Qred
       (sleeps (log (snd (upload_with_retries float_small
                            (failing_first 2 unavailable 10 Byte.x00)
                            "a.jpg" DEFAULT_RETRIES DEFAULT_BACKOFF DEFAULT_CHUNK world0))))
     = [3 # 2; 3 # 2]%Q.
Proof. vm_compute. repeat split. Qed.

(** Scenario D: two retries allowed, every pass fails; three passes, and
    sleeps of 0.75 * 2 * 0.75 and 0.75 * 1 * 0.75 seconds (latest first). *)
Example scenario_retries_exhausted :
  fst (upload_with_retries float_small (always_raising connection_error 10 Byte.x00)
         "a.jpg" 2 DEFAULT_BACKOFF DEFAULT_CHUNK world0)
  = inr ("a.jpg"%string, None, Some "failed after 2 retries: ConnectionError"%string)
  /\ tries (snd (upload_with_retries float_small
                   (always_raising connection_error 10 Byte.x00)
                   "a.jpg" 2 DEFAULT_BACKOFF DEFAULT_CHUNK world0))
     = 3%nat
  /\ map Qred
       (sleeps (log (snd (upload_with_retries float_small
                            (always_raising connection_error 10 Byte.x00)
                            "a.jpg" 2 DEFAULT_BACKOFF DEFAULT_CHUNK world0))))
     = [9 # 8; 9 # 16]%Q.
Proof. vm_compute. repeat split. Qed.

(** The same scenario with [--backoff -1]: the first sleep raises. *)
Example scenario_negative_backoff :
  fst (upload_with_retries float_small (always_raising connection_error 10 Byte.x00)
         "a.jpg" 2 (-1)%Q DEFAULT_CHUNK world0)
  = inl ValueError
  /\ stdout (main float_small args_negative_backoff host3)
     = [ "Uploading 3 files to Box folder 0 with 8 workers...";
         "[OK] /home/u/photos/a.jpg -> file_id=id-1";
         "[SKIP] /home/u/photos/b.jpg -> skipped: 409 Conflict (name exists)" ]%string
  /\ status (main float_small args_negative_backoff host3) = inl ValueError.
Proof. vm_compute. repeat split. Qed.

(** A header set as [Retry-After] is read under any spelling of its case. *)
Example headers_ignore_case :
  headers_get headers_2_date "Retry-After" = Some "2"%string
  /\ headers_get headers_2_date "retry-after" = Some "2"%string
  /\ headers_get (headers_set "RETRY-AFTER" "3" ∅) "Retry-After" = Some "3"%string
  /\ headers_get headers_2_date "Retry" = None.
Proof. repeat split. Qed.

(** C3 at status 503 with [Retry-After: 2], and at status 403. *)
Lemma is_retryable_verdicts_witness :
  transient_status 503
  /\ is_retryable float_small unavailable = (true, Some 503, Some 2%Q)
  /\ is_retryable float_small forbidden = (false, Some 403, None).
Proof.
  assert (Ht : transient_status 503) by (right; lia).
  assert (Hn : ~ transient_status 403) by (unfold transient_status; lia).
  destruct (is_retryable_verdicts float_small "BoxAPIException" 503 retry_after_2)
    as (_ & _ & Htransient & _).
  destruct (is_retryable_verdicts float_small "BoxAPIException" 403 retry_after_2)
    as (_ & _ & _ & Hother & _).
  destruct (Htransient Ht) as (Hverdict & _).
  split; [exact Ht | ]. split.
  - exact Hverdict.
  - apply Hother; [lia | lia | exact Hn].
Defined.

(** C9 at status 403 with [Retry-After: 2]: the header is not read. *)
Lemma terminal_verdict_has_no_hint_witness :
  fst (fst (is_retryable float_small forbidden)) = false
  /\ retry_after_header float_small retry_after_2 = Some 2%Q
  /\ snd (is_retryable float_small forbidden) = None.
Proof.
  split; [reflexivity | ]. split; [reflexivity | ].
  apply (terminal_verdict_has_no_hint float_small forbidden). reflexivity.
Defined.

(** C5 at the boundary and one byte above it. *)
Lemma strategy_by_size_witness :
  stat_size (always_raising connection_error DIRECT_UPLOAD_MAX Byte.x00) (tries world0)
  = inr DIRECT_UPLOAD_MAX
  /\ log (snd (try_upload (always_raising connection_error DIRECT_UPLOAD_MAX Byte.x00)
                 DEFAULT_CHUNK world0))
     = [EvUploadSmall]
  /\ log (snd (try_upload (always_raising connection_error (DIRECT_UPLOAD_MAX + 1) Byte.x00)
                 DEFAULT_CHUNK world0))
     = [EvUploadLarge DEFAULT_CHUNK].
Proof.
  split; [reflexivity | ]. split.
  - apply (strategy_by_size (always_raising connection_error DIRECT_UPLOAD_MAX Byte.x00)
             DEFAULT_CHUNK DIRECT_UPLOAD_MAX world0); reflexivity.
  - apply (strategy_by_size
             (always_raising connection_error (DIRECT_UPLOAD_MAX + 1) Byte.x00)
             DEFAULT_CHUNK (DIRECT_UPLOAD_MAX + 1) world0); reflexivity.
Defined.

(** C8 at the first pass: scenario C of the specification. *)
Lemma conflict_is_skipped_at_once_witness :
  try_upload (always_raising conflict 10 Byte.x00) DEFAULT_CHUNK world0
  = (inl conflict, record EvUploadSmall (enter_try world0))
  /\ upload_loop float_small (always_raising conflict 10 Byte.x00) "a.jpg"
       DEFAULT_RETRIES DEFAULT_BACKOFF DEFAULT_CHUNK 0 world0
     = (inr ("a.jpg"%string, None, Some "skipped: 409 Conflict (name exists)"%string),
        {| tries := 1; draws := 0; log := [EvUploadSmall] |}).
Proof.
  split; [reflexivity | ].
  apply (conflict_is_skipped_at_once float_small (always_raising conflict 10 Byte.x00)
           "a.jpg" DEFAULT_RETRIES DEFAULT_BACKOFF DEFAULT_CHUNK 0 world0
           (record EvUploadSmall (enter_try world0)) "BoxAPIException" None).
  reflexivity.
Defined.

(** C1, as claimed, fails at status 400: the error is not retryable and is
    not a conflict, and the result is counted as skipped, not as failed. *)
Lemma bad_request_is_counted_as_skipped :
  fst (is_retryable float_small bad_request) = (false, Some 400)
  /\ 400 <> 409
  /\ exists r,
       fst (upload_with_retries float_small (always_raising bad_request 10 Byte.x00)
              "a.jpg" DEFAULT_RETRIES DEFAULT_BACKOFF DEFAULT_CHUNK world0)
       = inr r
       /\ r = ("a.jpg"%string, None, Some "skipped: 400 Bad Request"%string)
       /\ categorize r = Skipped
       /\ categorize r <> Failed.
Proof.
  split; [reflexivity | ]. split; [lia | ].
  eexists. split; [reflexivity | ]. split; [reflexivity | ].
  split; [reflexivity | ]. vm_compute. discriminate.
Qed.

(** C1, as the code has it, at status 403 and at status 400. *)
Lemma terminal_error_outcome_witness :
  try_upload (always_raising forbidden 10 Byte.x00) DEFAULT_CHUNK world0
  = (inl forbidden, record EvUploadSmall (enter_try world0))
  /\ fst (is_retryable float_small forbidden) = (false, Some 403)
  /\ 403 <> 409
  /\ fst (upload_loop float_small (always_raising forbidden 10 Byte.x00) "a.jpg"
            DEFAULT_RETRIES DEFAULT_BACKOFF DEFAULT_CHUNK 0 world0)
     = inr ("a.jpg"%string, None, Some "failed: HTTP 403 BoxAPIException"%string)
  /\ fst (upload_loop float_small (always_raising bad_request 10 Byte.x00) "a.jpg"
            DEFAULT_RETRIES DEFAULT_BACKOFF DEFAULT_CHUNK 0 world0)
     = inr ("a.jpg"%string, None, Some "skipped: 400 Bad Request"%string).
Proof.
  assert (H403 : 403 <> 409) by lia.
  assert (H400 : 400 <> 409) by lia.
  split; [reflexivity | ]. split; [reflexivity | ]. split; [exact H403 | ].
  split.
  - apply (terminal_error_outcome float_small (always_raising forbidden 10 Byte.x00)
             "a.jpg" DEFAULT_RETRIES DEFAULT_BACKOFF DEFAULT_CHUNK 0 world0
             (record EvUploadSmall (enter_try world0)) forbidden 403
             eq_refl eq_refl H403).
    lia.
  - apply (terminal_error_outcome float_small (always_raising bad_request 10 Byte.x00)
             "a.jpg" DEFAULT_RETRIES DEFAULT_BACKOFF DEFAULT_CHUNK 0 world0
             (record EvUploadSmall (enter_try world0)) bad_request 400
             eq_refl eq_refl H400).
    reflexivity.
Defined.

(** C7 on the root with three files, one of which fails. *)
Lemma exit_status_reflects_failures_witness :
  root_exists host3 = true
  /\ root_is_dir host3 = true
  /\ make_client_raises host3 = None
  /\ Forall is_result (outcomes_of float_small args0 host3)
  /\ status (main float_small args0 host3) = inr 1
  /\ ~ Forall (fun r => categorize r <> Failed) (results_of float_small args0 host3).
Proof.
  assert (Hall : Forall is_result (outcomes_of float_small args0 host3)).
  { vm_compute. repeat (constructor; [exact I | ]). constructor. }
  destruct (exit_status_reflects_failures float_small args0 host3 eq_refl eq_refl eq_refl)
    as (_ & Hdone).
  destruct (Hdone Hall) as (_ & _ & Hiff).
  split; [reflexivity | ]. split; [reflexivity | ]. split; [reflexivity | ].
  split; [exact Hall | ]. split; [reflexivity | ].
  intros Hnone. apply Hiff in Hnone. discriminate Hnone.
Defined.

(** C10 on the root with no file to upload. *)
Lemma no_files_no_uploads_witness :
  root_exists host0 = true
  /\ root_is_dir host0 = true
  /\ make_client_raises host0 = None
  /\ iter_files (rglob host0) = []
  /\ main float_small args0 host0
     = {| stdout := ["no files to upload"%string];
          stderr := [];
          status := inr 0;
          task_worlds := [] |}.
Proof.
  split; [reflexivity | ]. split; [reflexivity | ]. split; [reflexivity | ].
  split; [reflexivity | ].
  apply (no_files_no_uploads float_small args0 host0); reflexivity.
Defined.

(** * Further properties *)

(** ** More on the per-file loop *)

Section LoopInduction.

Variable float : string -> option Q.
Variable E : env.
Variables (file_path : string) (retries : Z) (base_backoff : Q) (chunk_size : Z).

(** Induction along the turns of the loop: a property of the run from
    [(attempt, w)] holds of every run when it holds of the five ways the
    loop returns and of the way it raises, and is carried over a retry. *)
Lemma upload_loop_induction
    (P : Z -> world -> (exception + result) * world -> Prop) :
  (forall attempt w file_id w1,
     try_upload E chunk_size w = (inr file_id, w1) ->
     P attempt w (inr (file_path, Some file_id, None), w1)) ->
  (forall attempt w cls headers w1,
     try_upload E chunk_size w = (inl (BoxAPIException cls 409 headers), w1) ->
     P attempt w
       (inr (file_path, None, Some "skipped: 409 Conflict (name exists)"%string), w1)) ->
  (forall attempt w cls headers w1,
     try_upload E chunk_size w = (inl (BoxAPIException cls 400 headers), w1) ->
     P attempt w (inr (file_path, None, Some "skipped: 400 Bad Request"%string), w1)) ->
  (forall attempt w cls code headers w1,
     try_upload E chunk_size w = (inl (BoxAPIException cls code headers), w1) ->
     code <> 409 -> code <> 400 -> ~ transient_status code ->
     P attempt w
       (inr (file_path, None,
             Some ("failed: HTTP " +:+ code_or_na (Some code) +:+ " " +:+ cls)), w1)) ->
  (forall attempt w e code ra w1,
     try_upload E chunk_size w = (inl e, w1) ->
     is_retryable float e = (true, code, ra) ->
     attempt + 1 > retries ->
     P attempt w
       (inr (file_path, None,
             Some ("failed after " +:+ Py.str retries +:+ " retries: " +:+ type_name e)),
        w1)) ->
  (forall attempt w e code ra w1 raised w2,
     try_upload E chunk_size w = (inl e, w1) ->
     is_retryable float e = (true, code, ra) ->
     attempt + 1 <= retries ->
     backoff_sleep E (attempt + 1) base_backoff ra w1 = (inl raised, w2) ->
     P attempt w (inl raised, w2)) ->
  (forall attempt w e code ra w1 w2,
     try_upload E chunk_size w = (inl e, w1) ->
     is_retryable float e = (true, code, ra) ->
     attempt + 1 <= retries ->
     backoff_sleep E (attempt + 1) base_backoff ra w1 = (inr tt, w2) ->
     P (attempt + 1) w2
       (upload_loop float E file_path retries base_backoff chunk_size (attempt + 1) w2) ->
     P attempt w
       (upload_loop float E file_path retries base_backoff chunk_size (attempt + 1) w2)) ->
  forall attempt w,
    P attempt w (upload_loop float E file_path retries base_backoff chunk_size attempt w).
Proof.
  intros Hok H409 H400 Hhttp Hexhausted Hraise Hretry attempt w.
  remember (Z.to_nat (retries - attempt)) as n eqn:Hn.
  revert attempt w Hn.
  induction n as [n IH] using lt_wf_ind. intros attempt w Hn.
  rewrite upload_loop_step.
  destruct (try_upload E chunk_size w) as [[e | file_id] w1] eqn:Htry;
    [ | now apply Hok].
  destruct (is_retryable float e) as [[retryable code] ra] eqn:Hv.
  destruct retryable.
  - destruct (retryable_not_early float e code ra Hv) as [-> ->].
    cbn [negb]. destruct (attempt + 1 >? retries) eqn:Hgt.
    + apply (Hexhausted attempt w e code ra w1 Htry Hv). lia.
    + destruct (backoff_sleep E (attempt + 1) base_backoff ra w1)
        as [[raised | []] w2] eqn:Hsleep.
      * apply (Hraise attempt w e code ra w1 raised w2 Htry Hv); [lia | exact Hsleep].
      * apply (Hretry attempt w e code ra w1 w2 Htry Hv); [lia | exact Hsleep | ].
        apply (IH (Z.to_nat (retries - (attempt + 1)))); [lia | reflexivity].
  - destruct (terminal_is_box float e code ra Hv)
      as (cls & c & headers & -> & -> & -> & Hnot).
    cbn. destruct (c =? 409) eqn:E409.
    + apply Z.eqb_eq in E409. subst c. now apply (H409 attempt w cls headers).
    + destruct (c =? 400) eqn:E400.
      * apply Z.eqb_eq in E400. subst c. now apply (H400 attempt w cls headers).
      * cbn. apply (Hhttp attempt w cls c headers w1 Htry); [lia | lia | exact Hnot].
Qed.

Lemma try_upload_log (w : world) :
  exists l,
    log (snd (try_upload E chunk_size w)) = l ++ log w
    /\ (length l <= 1)%nat
    /\ sleep_calls (log (snd (try_upload E chunk_size w))) = sleep_calls (log w).
Proof.
  unfold try_upload. destruct (stat_size E (tries w)) as [e | size]; cbn.
  - exists []. split; [reflexivity | split; [cbn; lia | reflexivity]].
  - destruct (size <=? DIRECT_UPLOAD_MAX); cbn; eexists [_];
      (split; [reflexivity | split; [cbn; lia | reflexivity]]).
Qed.

(** The ways a run ends: the five results, or an exception of
    [backoff_sleep]. *)
Lemma upload_result_forms (w : world) :
  (exists file_id,
     fst (upload_with_retries float E file_path retries base_backoff chunk_size w)
     = inr (file_path, Some file_id, None))
  \/ fst (upload_with_retries float E file_path retries base_backoff chunk_size w)
     = inr (file_path, None, Some "skipped: 409 Conflict (name exists)"%string)
  \/ fst (upload_with_retries float E file_path retries base_backoff chunk_size w)
     = inr (file_path, None, Some "skipped: 400 Bad Request"%string)
  \/ (exists code cls,
        fst (upload_with_retries float E file_path retries base_backoff chunk_size w)
        = inr (file_path, None,
               Some ("failed: HTTP " +:+ code_or_na (Some code) +:+ " " +:+ cls)))
  \/ (exists cls,
        fst (upload_with_retries float E file_path retries base_backoff chunk_size w)
        = inr (file_path, None,
               Some ("failed after " +:+ Py.str retries +:+ " retries: " +:+ cls)))
  \/ (exists raised,
        fst (upload_with_retries float E file_path retries base_backoff chunk_size w)
        = inl raised
        /\ (raised = OverflowError \/ exists n d, time_sleep E n d = Some raised)).
Proof.
  unfold upload_with_retries. generalize 0. intros attempt. revert attempt w.
  apply (upload_loop_induction
           (fun _ _ rw =>
              (exists file_id, fst rw = inr (file_path, Some file_id, None))
              \/ fst rw
                 = inr (file_path, None, Some "skipped: 409 Conflict (name exists)"%string)
              \/ fst rw = inr (file_path, None, Some "skipped: 400 Bad Request"%string)
              \/ (exists code cls,
                    fst rw
                    = inr (file_path, None,
                           Some ("failed: HTTP " +:+ code_or_na (Some code) +:+ " "
                                 +:+ cls)))
              \/ (exists cls,
                    fst rw
                    = inr (file_path, None,
                           Some ("failed after " +:+ Py.str retries +:+ " retries: "
                                 +:+ cls)))
              \/ (exists raised,
                    fst rw = inl raised
                    /\ (raised = OverflowError
                        \/ exists n d, time_sleep E n d = Some raised))));
    cbn [fst]; eauto 8.
  intros attempt w e code ra w1 raised w2 _ _ _ Hsleep.
  do 5 right. exists raised. split; [reflexivity | ].
  destruct (backoff_sleep_inl E _ _ _ _ _ _ Hsleep)
    as [(_ & -> & _) | (_ & Hcall & _)]; [now left | right; eauto].
Qed.

(** X1.  Whatever the world answers, a run of [upload_with_retries] ends
    in one of two ways.  Either it returns the path it was given, with a
    file id and no error text, or with no file id and an error text that
    starts with "skipped: " or with "failed".  Or it ends by an exception
    of [backoff_sleep]: the [OverflowError] of line 66, or what
    [time.sleep] raised. *)
Theorem upload_result_shape (w : world) :
  (exists r,
     fst (upload_with_retries float E file_path retries base_backoff chunk_size w)
     = inr r
     /\ fst (fst r) = file_path
     /\ ((exists file_id, r = (file_path, Some file_id, None))
         \/ (exists text,
               r = (file_path, None, Some text)
               /\ (Py.startswith text "skipped: " = true
                   \/ Py.startswith text "failed" = true))))
  \/ (exists raised,
        fst (upload_with_retries float E file_path retries base_backoff chunk_size w)
        = inl raised
        /\ (raised = OverflowError \/ exists n d, time_sleep E n d = Some raised)).
Proof.
  destruct (upload_result_forms w)
    as [(file_id & ->) | [-> | [-> | [(code & cls & ->) | [(cls & ->) | Hraised]]]]];
    [left .. | right; exact Hraised];
    eexists; (split; [reflexivity | ]); (split; [reflexivity | ]);
    [left | right ..]; eexists; try reflexivity;
    (split; [reflexivity | ]); auto.
Qed.

(** X2.  Whatever the world answers, a run of [upload_with_retries] makes
    at least one pass through the [try] block and at most [retries + 1]
    (exactly one when [retries <= 0]); the number of its sleeps that
    returned is the number of its passes minus one; it draws one random
    byte per call of [time.sleep]; there is at most one call of
    [time.sleep] that did not return, and none in a run that returns a
    result, which so draws one byte less than it makes passes; and it
    makes at most one upload call per pass. *)
Theorem upload_passes_and_sleeps (w : world) :
  (tries w + 1
   <= tries (snd (upload_with_retries float E file_path retries base_backoff chunk_size w)))%nat
  /\ (tries (snd (upload_with_retries float E file_path retries base_backoff chunk_size w))
      <= tries w + Z.to_nat retries + 1)%nat
  /\ (retries <= 0 ->
      tries (snd (upload_with_retries float E file_path retries base_backoff chunk_size w))
      = (tries w + 1)%nat)
  /\ (length (sleeps (log (snd (upload_with_retries float E file_path retries
                                  base_backoff chunk_size w))))
      + tries w + 1
      = length (sleeps (log w))
        + tries (snd (upload_with_retries float E file_path retries base_backoff
                        chunk_size w)))%nat
  /\ (draws (snd (upload_with_retries float E file_path retries base_backoff chunk_size w))
      + length (sleep_calls (log w))
      = draws w
        + length (sleep_calls (log (snd (upload_with_retries float E file_path retries
                                           base_backoff chunk_size w)))))%nat
  /\ (length (sleeps (log (snd (upload_with_retries float E file_path retries
                                  base_backoff chunk_size w))))
      + length (sleep_calls (log w))
      <= length (sleep_calls (log (snd (upload_with_retries float E file_path retries
                                          base_backoff chunk_size w))))
         + length (sleeps (log w)))%nat
  /\ (length (sleep_calls (log (snd (upload_with_retries float E file_path retries
                                       base_backoff chunk_size w))))
      + length (sleeps (log w))
      <= length (sleeps (log (snd (upload_with_retries float E file_path retries
                                     base_backoff chunk_size w))))
         + length (sleep_calls (log w)) + 1)%nat
  /\ (forall r,
        fst (upload_with_retries float E file_path retries base_backoff chunk_size w)
        = inr r ->
        (draws (snd (upload_with_retries float E file_path retries base_backoff
                       chunk_size w))
         + tries w + 1
         = draws w
           + tries (snd (upload_with_retries float E file_path retries base_backoff
                           chunk_size w)))%nat)
  /\ (length (uploads (log (snd (upload_with_retries float E file_path retries
                                   base_backoff chunk_size w))))
      + tries w
      <= length (uploads (log w))
         + tries (snd (upload_with_retries float E file_path retries base_backoff
                         chunk_size w)))%nat.
Proof.
  unfold upload_with_retries.
  cut (let rw := upload_loop float E file_path retries base_backoff chunk_size 0 w in
       (tries w + 1 <= tries (snd rw))%nat
       /\ (tries (snd rw) <= tries w + Z.to_nat (retries - 0) + 1)%nat
       /\ (length (sleeps (log (snd rw))) + tries w + 1
           = length (sleeps (log w)) + tries (snd rw))%nat
       /\ (draws (snd rw) + length (sleep_calls (log w))
           = draws w + length (sleep_calls (log (snd rw))))%nat
       /\ (length (sleeps (log (snd rw))) + length (sleep_calls (log w))
           <= length (sleep_calls (log (snd rw))) + length (sleeps (log w)))%nat
       /\ (length (sleep_calls (log (snd rw))) + length (sleeps (log w))
           <= length (sleeps (log (snd rw))) + length (sleep_calls (log w)) + 1)%nat
       /\ (forall r, fst rw = inr r ->
           (length (sleep_calls (log (snd rw))) + length (sleeps (log w))
            = length (sleeps (log (snd rw))) + length (sleep_calls (log w)))%nat)
       /\ (length (uploads (log (snd rw))) + tries w
           <= length (uploads (log w)) + tries (snd rw))%nat).
  { replace (retries - 0) with retries by lia. cbv zeta.
    intros (H1 & H2 & H3 & H4 & H5 & H6 & H7 & H8).
    repeat split; try assumption; try lia.
    intros r Hr. specialize (H7 r Hr). lia. }
  cbv zeta.
  apply (upload_loop_induction
           (fun attempt w rw =>
              (tries w + 1 <= tries (snd rw))%nat
              /\ (tries (snd rw) <= tries w + Z.to_nat (retries - attempt) + 1)%nat
              /\ (length (sleeps (log (snd rw))) + tries w + 1
                  = length (sleeps (log w)) + tries (snd rw))%nat
              /\ (draws (snd rw) + length (sleep_calls (log w))
                  = draws w + length (sleep_calls (log (snd rw))))%nat
              /\ (length (sleeps (log (snd rw))) + length (sleep_calls (log w))
                  <= length (sleep_calls (log (snd rw))) + length (sleeps (log w)))%nat
              /\ (length (sleep_calls (log (snd rw))) + length (sleeps (log w))
                  <= length (sleeps (log (snd rw))) + length (sleep_calls (log w)) + 1)%nat
              /\ (forall r, fst rw = inr r ->
                  (length (sleep_calls (log (snd rw))) + length (sleeps (log w))
                   = length (sleeps (log (snd rw))) + length (sleep_calls (log w)))%nat)
              /\ (length (uploads (log (snd rw))) + tries w
                  <= length (uploads (log w)) + tries (snd rw))%nat)).
  1-5: intros; cbn [snd fst];
    match goal with
    | Htry : try_upload E chunk_size ?w0 = _ |- _ =>
        pose proof (try_upload_world E chunk_size w0) as (Ht & Hd & Hs & Hu);
        destruct (try_upload_log w0) as (l0 & _ & _ & Hc);
        rewrite Htry in Ht, Hd, Hs, Hu, Hc; cbn [snd] in Ht, Hd, Hs, Hu, Hc
    end;
    rewrite Hs, Hc; repeat split; intros; lia.
  - intros attempt w0 e code ra w1 raised w2 Htry Hv Hle Hsleep.
    pose proof (try_upload_world E chunk_size w0) as (Ht & Hd & Hs & Hu).
    destruct (try_upload_log w0) as (l0 & _ & _ & Hc).
    rewrite Htry in Ht, Hd, Hs, Hu, Hc. cbn [snd] in Ht, Hd, Hs, Hu, Hc.
    cbn [snd fst].
    destruct (backoff_sleep_inl E _ _ _ _ _ _ Hsleep)
      as [(_ & _ & ->) | (_ & _ & ->)]; cbn; rewrite ?Hs, ?Hc;
      (repeat split; [lia .. | discriminate | lia]).
  - intros attempt w0 e code ra w1 w2 Htry Hv Hle Hsleep
      (IH1 & IH2 & IH3 & IH4 & IH5 & IH6 & IH7 & IH8).
    pose proof (try_upload_world E chunk_size w0) as (Ht & Hd & Hs & Hu).
    destruct (try_upload_log w0) as (l0 & _ & _ & Hc).
    rewrite Htry in Ht, Hd, Hs, Hu, Hc. cbn [snd] in Ht, Hd, Hs, Hu, Hc.
    destruct (backoff_sleep_inr E _ _ _ _ _ _ Hsleep) as (-> & _).
    cbn in IH1, IH2, IH3, IH4, IH5, IH6, IH7, IH8. rewrite ?Hs, ?Hc in *.
    repeat split; try lia.
    intros r Hr. specialize (IH7 r Hr). lia.
Qed.

Lemma upload_loop_succeeds (limit : Q) (most : Z) (k : nat) :
  sleep_accepts E limit ->
  backoff_within base_backoff most limit ->
  forall (attempt : Z) (w : world) (file_id : string),
    succeeds_at float E chunk_size limit w k file_id ->
    attempt + Z.of_nat k <= retries ->
    attempt + Z.of_nat k <= most ->
    exists w',
      upload_loop float E file_path retries base_backoff chunk_size attempt w
      = (inr (file_path, Some file_id, None), w')
      /\ tries w' = (tries w + k + 1)%nat
      /\ length (sleeps (log w')) = (length (sleeps (log w)) + k)%nat.
Proof.
  intros Haccepts Hbase.
  induction k as [ | k IH]; intros attempt w file_id [Hfail Hok] Hle Hmost;
    pose proof (try_upload_world E chunk_size w) as (Ht & _ & Hs & _).
  - destruct (Hok w) as (w1 & Htry); [lia | ].
    rewrite Htry in Ht, Hs. cbn [snd] in Ht, Hs.
    rewrite upload_loop_step, Htry. exists w1. rewrite Hs. repeat split; lia.
  - destruct (Hfail w) as (e & w1 & code & ra & Htry & Hv & Hhint); [lia | ].
    rewrite Htry in Ht, Hs. cbn [snd] in Ht, Hs.
    rewrite (upload_loop_retry float E file_path retries base_backoff chunk_size
               attempt w w1 e code ra Htry Hv).
    replace (attempt + 1 >? retries) with false by lia.
    rewrite (backoff_sleep_within E most base_backoff limit) by (assumption || lia).
    destruct (IH (attempt + 1)
                (record (EvSleep (delay_of (attempt + 1) base_backoff ra
                                  * jitter (urandom E (draws w1)))%Q) (draw w1))
                file_id)
      as (w' & Hres & Htries & Hsleeps).
    + split; intros w2 Hw2; cbn in Hw2; [apply Hfail | apply Hok]; lia.
    + lia.
    + lia.
    + exists w'. split; [exact Hres | ]. cbn in Htries, Hsleeps.
      rewrite Htries, Hsleeps, Hs. split; lia.
Qed.

(** X3.  When the first [k] passes raise retryable errors and the next
    one uploads the file, with [k <= retries], and the sleeps in between
    return (the base is not negative, the delays and the hints are within
    what [time.sleep] accepts), the run returns the file id with no error
    text, after exactly [k + 1] passes and [k] sleeps. *)
Theorem success_after_retries (limit : Q) (w : world) (k : nat) (file_id : string) :
  sleep_accepts E limit ->
  backoff_within base_backoff (Z.of_nat k) limit ->
  succeeds_at float E chunk_size limit w k file_id ->
  Z.of_nat k <= retries ->
  fst (upload_with_retries float E file_path retries base_backoff chunk_size w)
  = inr (file_path, Some file_id, None)
  /\ tries (snd (upload_with_retries float E file_path retries base_backoff chunk_size w))
     = (tries w + k + 1)%nat
  /\ length (sleeps (log (snd (upload_with_retries float E file_path retries
                                 base_backoff chunk_size w))))
     = (length (sleeps (log w)) + k)%nat.
Proof.
  intros Haccepts Hbase Hat Hle. unfold upload_with_retries.
  destruct (upload_loop_succeeds limit (Z.of_nat k) k Haccepts Hbase 0 w file_id Hat)
    as (w' & -> & Ht & Hs); [lia | lia | ].
  repeat split; assumption.
Qed.

(** X4.  [main] counts a result of [upload_with_retries] as ok exactly
    when it carries a file id that is not empty, and as skipped exactly
    when its text is one of the two "skipped" texts, that of status 409 or
    that of status 400. *)
Theorem upload_result_category (w : world) (r : result) :
  fst (upload_with_retries float E file_path retries base_backoff chunk_size w) = inr r ->
  (categorize r = Ok
   <-> exists file_id, file_id <> ""%string /\ r = (file_path, Some file_id, None))
  /\ (categorize r = Skipped
      <-> r = (file_path, None, Some "skipped: 409 Conflict (name exists)"%string)
          \/ r = (file_path, None, Some "skipped: 400 Bad Request"%string)).
Proof.
  intros Hr.
  destruct (upload_result_forms w)
    as [(file_id & H) | [H | [H | [(code & cls & H) | [(cls & H) | (raised & H & _)]]]]];
    rewrite H in Hr; [ | | | | | discriminate]; injection Hr as <-.
  - destruct file_id as [ | c file_id].
    + split; split; try discriminate.
      * intros (file_id & Hne & [= <-]). contradiction.
      * intros [ | ]; discriminate.
    + split; split; try discriminate.
      * intros _. eexists. split; [ | reflexivity]. discriminate.
      * reflexivity.
      * intros [ | ]; discriminate.
  - split; split; try discriminate.
    + intros (file_id & _ & [=]).
    + intros _. now left.
    + reflexivity.
  - split; split; try discriminate.
    + intros (file_id & _ & [=]).
    + intros _. now right.
    + reflexivity.
  - split; split; try discriminate.
    + intros (file_id & _ & [=]).
    + intros [ | ]; discriminate.
  - split; split; try discriminate.
    + intros (file_id & _ & [=]).
    + intros [ | ]; discriminate.
Qed.

Lemma schedule_lookup (n : nat) :
  forall (attempt : Z) (d k : nat),
    (k < n)%nat ->
    schedule E base_backoff attempt d n !! k
    = Some (delay_of (attempt + Z.of_nat k + 1) base_backoff None
            * jitter (urandom E (d + k)))%Q.
Proof.
  induction n as [ | n IH]; intros attempt d k Hk; [lia | ].
  destruct k as [ | k]; cbn [schedule].
  - replace (attempt + Z.of_nat 0 + 1) with (attempt + 1) by lia.
    replace (d + 0)%nat with d by lia. reflexivity.
  - change ((?x :: ?l) !! S k) with (l !! k). rewrite IH by lia.
    replace (attempt + 1 + Z.of_nat k + 1) with (attempt + Z.of_nat (S k) + 1) by lia.
    replace (S d + k)%nat with (d + S k)%nat by lia. reflexivity.
Qed.

Lemma upload_loop_schedule (limit : Q) (n : nat) :
  sleep_accepts E limit ->
  backoff_within base_backoff retries limit ->
  always_transient_no_hint float E chunk_size ->
  forall (attempt : Z) (w : world),
    attempt <= retries ->
    Z.to_nat (retries - attempt) = n ->
    sleeps (log (snd (upload_loop float E file_path retries base_backoff chunk_size
                        attempt w)))
    = rev (schedule E base_backoff attempt (draws w) n) ++ sleeps (log w).
Proof.
  intros Haccepts Hbase Hall. induction n as [ | n IH]; intros attempt w Hle Hn;
    destruct (Hall w) as (e & w1 & code & Htry & Hv);
    pose proof (try_upload_world E chunk_size w) as (_ & Hd & Hs & _);
    rewrite Htry in Hd, Hs; cbn [snd] in Hd, Hs;
    rewrite (upload_loop_retry float E file_path retries base_backoff chunk_size
               attempt w w1 e code None Htry Hv).
  - replace (attempt + 1 >? retries) with true by lia. cbn. exact Hs.
  - replace (attempt + 1 >? retries) with false by lia.
    rewrite (backoff_sleep_within E retries base_backoff limit)
      by (assumption || exact I || lia).
    rewrite IH by lia. cbn. rewrite Hd, Hs, <- app_assoc. reflexivity.
Qed.

(** X5.  When every pass raises a retryable error without hint,
    [retries >= 0], and the sleeps return (the base is not negative, and
    the delays up to the last can be computed and are within what
    [time.sleep] accepts), the run sleeps [retries] times, and its [k]-th
    sleep (from 0) lasts [base_backoff * 2^k] times the jitter of the
    [k]-th byte drawn. *)
Theorem exponential_schedule (limit : Q) (w : world) :
  0 <= retries ->
  sleep_accepts E limit ->
  backoff_within base_backoff retries limit ->
  always_transient_no_hint float E chunk_size ->
  sleeps (log (snd (upload_with_retries float E file_path retries base_backoff
                      chunk_size w)))
  = rev (schedule E base_backoff 0 (draws w) (Z.to_nat retries)) ++ sleeps (log w)
  /\ length (schedule E base_backoff 0 (draws w) (Z.to_nat retries)) = Z.to_nat retries
  /\ forall k : nat,
       (k < Z.to_nat retries)%nat ->
       schedule E base_backoff 0 (draws w) (Z.to_nat retries) !! k
       = Some (base_backoff * Qpower 2 (Z.of_nat k) * jitter (urandom E (draws w + k)))%Q.
Proof.
  intros Hpos Haccepts Hbase Hall. split; [ | split].
  - apply (upload_loop_schedule limit); [assumption .. | lia | f_equal; lia].
  - generalize 0 (draws w). induction (Z.to_nat retries) as [ | n IH]; intros a d;
      cbn [schedule length]; [reflexivity | now rewrite IH].
  - intros k Hk. rewrite schedule_lookup by exact Hk. unfold delay_of.
    replace (0 + Z.of_nat k + 1 - 1) with (Z.of_nat k) by lia. reflexivity.
Qed.



Lemma stat_failure_pass (w : world) :
  stat_always_fails E ->
  exists cls, try_upload E chunk_size w = (inl (OtherException cls), enter_try w).
Proof.
  intros Hstat. destruct (Hstat (tries w)) as (cls & Hcls).
  exists cls. unfold try_upload. now rewrite Hcls.
Qed.

Lemma stat_failure_transient (limit : Q) :
  stat_always_fails E -> always_transient_within float E chunk_size limit.
Proof.
  intros Hstat w0. destruct (stat_failure_pass w0 Hstat) as (cls & Hpass).
  exists (OtherException cls), (enter_try w0), None, None.
  split; [exact Hpass | ]. split; [reflexivity | exact I].
Qed.

(** X7.  When [file_path.stat()] raises in every pass (the file is gone),
    no upload call is made at all; and when the sleeps return (the base is
    not negative and the delays are within what [time.sleep] accepts) the
    error is retried like a network error: [retries + 1] passes, then
    "failed after <retries> retries". *)
Theorem stat_failure_is_retried_without_upload (limit : Q) (w : world) :
  0 <= retries ->
  stat_always_fails E ->
  sleep_accepts E limit ->
  backoff_within base_backoff retries limit ->
  uploads (log (snd (upload_with_retries float E file_path retries base_backoff
                       chunk_size w)))
  = uploads (log w)
  /\ tries (snd (upload_with_retries float E file_path retries base_backoff chunk_size w))
     = (tries w + Z.to_nat retries + 1)%nat
  /\ exists cls,
       fst (upload_with_retries float E file_path retries base_backoff chunk_size w)
       = inr (file_path, None,
              Some ("failed after " +:+ Py.str retries +:+ " retries: " +:+ cls)).
Proof.
  intros Hpos Hstat Haccepts Hbase. unfold upload_with_retries.
  destruct (upload_loop_exhausts float E file_path retries base_backoff chunk_size
              limit (Z.to_nat retries) Haccepts Hbase (stat_failure_transient limit Hstat)
              0 w)
    as (e & w' & Hres & Ht & _); [lia | f_equal; lia | ].
  split; [ | split].
  - apply (upload_loop_induction
             (fun _ w rw => uploads (log (snd rw)) = uploads (log w))).
    1-5: intros; cbn [snd];
      match goal with
      | Htry : try_upload E chunk_size ?w0 = _ |- _ =>
          destruct (stat_failure_pass w0 Hstat) as (cls0 & Hpass);
          rewrite Hpass in Htry; try discriminate Htry;
          injection Htry as _ <-; reflexivity
      end.
    + intros attempt w0 e0 code ra w1 raised w2 Htry Hv Hle Hsleep.
      destruct (stat_failure_pass w0 Hstat) as (cls0 & Hpass).
      rewrite Hpass in Htry. injection Htry as _ <-.
      pose proof (backoff_sleep_world E (attempt + 1) base_backoff ra (enter_try w0))
        as (_ & Hu & _).
      rewrite Hsleep in Hu. exact Hu.
    + intros attempt w0 e0 code ra w1 w2 Htry Hv Hle Hsleep IH.
      destruct (stat_failure_pass w0 Hstat) as (cls0 & Hpass).
      rewrite Hpass in Htry. injection Htry as _ <-.
      pose proof (backoff_sleep_world E (attempt + 1) base_backoff ra (enter_try w0))
        as (_ & Hu & _).
      rewrite Hsleep in Hu. cbn [snd] in Hu. rewrite IH. exact Hu.
  - rewrite Hres. cbn [snd]. lia.
  - exists (type_name e). now rewrite Hres.
Qed.

End LoopInduction.

(** X21.  With [retries >= 0], in a world where every pass fails with a
    retryable error and the sleeps return (the base is not negative, line
    66 does not overflow, and the delays and the hints are within what
    [time.sleep] accepts), [upload_with_retries] makes exactly
    [retries + 1] passes through the [try] block (so no more upload calls
    than that), sleeps [retries] times, and returns the text
    "failed after <retries> retries: <class>", which [main] counts as
    failed; with [retries = 2] that is three passes. *)
Theorem retries_exhausted_within (float : string -> option Q) (E : env)
    (file_path : string) (retries : Z) (base_backoff : Q) (chunk_size : Z)
    (limit : Q) (w : world) :
  0 <= retries ->
  sleep_accepts E limit ->
  backoff_within base_backoff retries limit ->
  always_transient_within float E chunk_size limit ->
  exists e w',
    upload_with_retries float E file_path retries base_backoff chunk_size w
    = (inr (file_path, None,
            Some ("failed after " +:+ Py.str retries +:+ " retries: " +:+ type_name e)),
       w')
    /\ categorize
         (file_path, None,
          Some ("failed after " +:+ Py.str retries +:+ " retries: " +:+ type_name e))
       = Failed
    /\ tries w' = (tries w + (Z.to_nat retries + 1))%nat
    /\ (retries = 2 -> tries w' = (tries w + 3)%nat)
    /\ length (sleeps (log w')) = (length (sleeps (log w)) + Z.to_nat retries)%nat
    /\ (length (uploads (log w')) <= length (uploads (log w)) + (Z.to_nat retries + 1))%nat.
Proof.
  intros Hpos Haccepts Hbase Hall. unfold upload_with_retries.
  destruct (upload_loop_exhausts float E file_path retries base_backoff chunk_size
              limit (Z.to_nat retries) Haccepts Hbase Hall 0 w)
    as (e & w' & Hres & Ht & Hs & Hu); [lia | f_equal; lia | ].
  exists e, w'. split; [exact Hres | ]. split; [reflexivity | ].
  split; [lia | ]. split; [intros ->; cbn in Ht; lia | ]. split; [exact Hs | lia].
Qed.

(** ** More on the backoff *)

Lemma delay_of_succ (attempt : Z) (base : Q) :
  (delay_of (attempt + 1) base None == 2 * delay_of attempt base None)%Q.
Proof.
  unfold delay_of.
  replace (attempt + 1 - 1) with ((attempt - 1) + 1) by lia.
  rewrite Qpower_plus by discriminate.
  change (Qpower 2 1) with 2%Q. ring.
Qed.

Lemma delay_of_nonneg (attempt : Z) (base : Q) :
  (0 <= base)%Q -> (0 <= delay_of attempt base None)%Q.
Proof.
  intros Hbase. unfold delay_of. apply Qmult_le_0_compat; [exact Hbase | ].
  apply Qpower_0_le. discriminate.
Qed.

(** X8.  Without a hint the delay of line 66 doubles from one attempt to
    the next, and for a base that is not negative it is not negative and
    never shrinks; with a hint it does not depend on the attempt. *)
Theorem delay_doubles (attempt : Z) (base hint : Q) :
  (delay_of (attempt + 1) base None == 2 * delay_of attempt base None)%Q
  /\ ((0 <= base)%Q ->
      (0 <= delay_of attempt base None)%Q
      /\ (delay_of attempt base None <= delay_of (attempt + 1) base None)%Q)
  /\ delay_of (attempt + 1) base (Some hint) = delay_of attempt base (Some hint).
Proof.
  split; [apply delay_of_succ | ]. split; [ | reflexivity].
  intros Hbase. pose proof (delay_of_nonneg attempt base Hbase) as Hpos.
  split; [exact Hpos | ]. rewrite delay_of_succ.
  rewrite <- (Qmult_1_l (delay_of attempt base None)) at 1.
  apply Qmult_le_compat_r; [discriminate | exact Hpos].
Qed.

(** X9.  For a delay that is not negative and that line 66 can compute,
    [backoff_sleep] makes one call of [time.sleep], for a duration between
    0.75 and 1.25 times the delay (both bounds included), and draws
    exactly one random byte; it returns exactly when that call does. *)
Theorem backoff_sleep_bounds (E : env) (attempt : Z) (base : Q)
    (retry_after : option Q) (w : world) :
  delay_overflows attempt retry_after = false ->
  (0 <= delay_of attempt base retry_after)%Q ->
  exists d,
    (log (snd (backoff_sleep E attempt base retry_after w)) = EvSleep d :: log w
     \/ log (snd (backoff_sleep E attempt base retry_after w)) = EvSleepRaised d :: log w)
    /\ sleep_calls (log (snd (backoff_sleep E attempt base retry_after w)))
       = d :: sleep_calls (log w)
    /\ ((3 # 4) * delay_of attempt base retry_after <= d)%Q
    /\ (d <= (5 # 4) * delay_of attempt base retry_after)%Q
    /\ (0 <= d)%Q
    /\ draws (snd (backoff_sleep E attempt base retry_after w)) = S (draws w)
    /\ tries (snd (backoff_sleep E attempt base retry_after w)) = tries w
    /\ (fst (backoff_sleep E attempt base retry_after w) = inr tt
        <-> time_sleep E (draws w) d = None)
    /\ (time_sleep E (draws w) d = None ->
        log (snd (backoff_sleep E attempt base retry_after w)) = EvSleep d :: log w).
Proof.
  intros Hover Hdelay.
  destruct (duration_range (delay_of attempt base retry_after) (urandom E (draws w))
              Hdelay) as (Hpos & Hhi & Hlo).
  exists (delay_of attempt base retry_after * jitter (urandom E (draws w)))%Q.
  rewrite backoff_sleep_call by exact Hover.
  destruct (time_sleep E (draws w)
              (delay_of attempt base retry_after * jitter (urandom E (draws w)))%Q)
    as [raised | ]; cbn [fst snd log record draw draws tries sleep_calls].
  - split; [now right | ]. split; [reflexivity | ].
    split; [exact Hlo | ]. split; [exact Hhi | ]. split; [exact Hpos | ].
    split; [reflexivity | ]. split; [reflexivity | ].
    split; [split; discriminate | discriminate].
  - split; [now left | ]. split; [reflexivity | ].
    split; [exact Hlo | ]. split; [exact Hhi | ]. split; [exact Hpos | ].
    split; [reflexivity | ]. split; [reflexivity | ].
    split; [split; reflexivity | reflexivity].
Qed.

Lemma byte_of_value (b : Byte.byte) (n : N) (b' : Byte.byte) :
  Byte.of_N n = Some b' -> Byte.to_N b = n -> b = b'.
Proof.
  intros Hof Hto. pose proof (Byte.of_to_N b) as H. rewrite Hto, Hof in H. congruence.
Qed.

(** X10.  The jitter of line 68 lies between 0.75 and 1.25; it is 0.75
    only for the byte 0 and 1.25 only for the byte 255, and it grows with
    the byte. *)
Theorem jitter_profile (b b' : Byte.byte) :
  ((3 # 4 <= jitter b)%Q /\ (jitter b <= 5 # 4)%Q)
  /\ ((jitter b == 3 # 4)%Q <-> b = Byte.x00)
  /\ ((jitter b == 5 # 4)%Q <-> b = Byte.xff)
  /\ ((jitter b <= jitter b')%Q <-> (Byte.to_N b <= Byte.to_N b')%N).
Proof.
  split; [apply jitter_range | ].
  pose proof (byte_value_bound b) as Hb. pose proof (byte_value_bound b') as Hb'.
  assert (Hlow : (jitter b == 3 # 4)%Q <-> Z.of_N (Byte.to_N b) = 0).
  { unfold jitter. generalize (Z.of_N (Byte.to_N b)). intros z.
    unfold Qeq, Qplus, Qmult, Qdiv, Qinv, inject_Z. cbn. lia. }
  assert (Hhigh : (jitter b == 5 # 4)%Q <-> Z.of_N (Byte.to_N b) = 255).
  { unfold jitter. generalize (Z.of_N (Byte.to_N b)). intros z.
    unfold Qeq, Qplus, Qmult, Qdiv, Qinv, inject_Z. cbn. lia. }
  split; [ | split].
  - rewrite Hlow. split.
    + intros Hz. apply (byte_of_value b 0 Byte.x00); [reflexivity | lia].
    + intros ->. reflexivity.
  - rewrite Hhigh. split.
    + intros Hz. apply (byte_of_value b 255 Byte.xff); [reflexivity | lia].
    + intros ->. reflexivity.
  - unfold jitter.
    assert (Hiff : (Byte.to_N b <= Byte.to_N b')%N
                   <-> Z.of_N (Byte.to_N b) <= Z.of_N (Byte.to_N b')) by lia.
    rewrite Hiff. clear.
    generalize (Z.of_N (Byte.to_N b)) (Z.of_N (Byte.to_N b')). intros z z'.
    unfold Qle, Qplus, Qmult, Qdiv, Qinv, inject_Z. cbn. lia.
Qed.

(** ** More on the classifier *)

Section ClassifierMore.

Variable float : string -> option Q.

Lemma retry_after_header_lookup (h : gmap string string) :
  retry_after_header float (Some h)
  = match headers_get h "Retry-After" with
    | Some s => if Py.truthy s then float s else None
    | None => None
    end.
Proof.
  unfold retry_after_header. case_bool_decide as Hempty; [ | reflexivity].
  subst h. unfold headers_get. now rewrite lookup_empty.
Qed.

(** X11.  The verdict of [is_retryable] on a [BoxAPIException] depends on
    its status and on its [Retry-After] header only: not on the class, not
    on a header whose name, lower-cased, is not "retry-after", and headers
    without [Retry-After] count as no headers.  The name of the header is
    read without regard to case: a header set under any spelling of
    "retry-after" is the hint. *)
Theorem verdict_reads_retry_after_only (cls cls' : string) (code : Z)
    (h h' : gmap string string) :
  headers_get h "Retry-After" = headers_get h' "Retry-After" ->
  is_retryable float (BoxAPIException cls code (Some h))
  = is_retryable float (BoxAPIException cls' code (Some h'))
  /\ (headers_get h "Retry-After" = None ->
      is_retryable float (BoxAPIException cls code (Some h))
      = is_retryable float (BoxAPIException cls' code None))
  /\ (forall (name value : string),
        Py.lower name <> "retry-after"%string ->
        is_retryable float (BoxAPIException cls code (Some (headers_set name value h)))
        = is_retryable float (BoxAPIException cls code (Some h)))
  /\ (forall (name value : string),
        Py.lower name = "retry-after"%string ->
        retry_after_header float (Some (headers_set name value h))
        = if Py.truthy value then float value else None).
Proof.
  intros Hsame. unfold is_retryable. split; [ | split; [ | split]].
  - rewrite !retry_after_header_lookup, Hsame. reflexivity.
  - intros Hnone. rewrite retry_after_header_lookup, Hnone. reflexivity.
  - intros name value Hname.
    rewrite !retry_after_header_lookup. unfold headers_get, headers_set.
    rewrite lookup_insert_ne by exact Hname. reflexivity.
  - intros name value Hname.
    rewrite retry_after_header_lookup. unfold headers_get, headers_set.
    rewrite Hname. change (Py.lower "Retry-After") with "retry-after"%string.
    now rewrite lookup_insert.
Qed.

End ClassifierMore.

(** ** The listing of the files *)

Lemma should_skip_false (p : entry) :
  should_skip p = false
  <-> entry_is_file p = true
      /\ entry_name p <> ""%string
      /\ Py.startswith (entry_name p) ".DS_Store" = false.
Proof.
  unfold should_skip. destruct (entry_is_file p); cbn.
  - destruct (entry_name p) as [ | c name]; cbn.
    + split; [discriminate | intros (_ & Hne & _); congruence].
    + split; [intros H; repeat split; [discriminate | exact H] | intros (_ & _ & H); exact H].
  - split; [discriminate | intros (H & _); discriminate].
Qed.

(** X12.  [iter_files] yields exactly the paths of the listing that are
    regular files with a name that is not empty and does not start with
    ".DS_Store". *)
Theorem iter_files_keeps (rglob : list entry) (p : entry) :
  In p (iter_files rglob)
  <-> In p rglob
      /\ entry_is_file p = true
      /\ entry_name p <> ""%string
      /\ Py.startswith (entry_name p) ".DS_Store" = false.
Proof.
  unfold iter_files. rewrite List.filter_In, negb_true_iff, should_skip_false.
  reflexivity.
Qed.

(** X13.  [iter_files] keeps the order of the listing and adds nothing;
    filtering twice changes nothing, and the files of two listings put end
    to end are the files of the first followed by those of the second. *)
Theorem iter_files_sublist (rglob rglob' : list entry) :
  iter_files rglob `sublist_of` rglob
  /\ iter_files (iter_files rglob) = iter_files rglob
  /\ iter_files (rglob ++ rglob') = iter_files rglob ++ iter_files rglob'
  /\ (length (iter_files rglob) <= length rglob)%nat.
Proof.
  unfold iter_files. split; [ | split; [ | split]].
  - induction rglob as [ | p l IH]; cbn; [constructor | ].
    destruct (negb (should_skip p)); [now apply sublist_skip | now apply sublist_cons].
  - induction rglob as [ | p l IH]; cbn; [reflexivity | ].
    destruct (negb (should_skip p)) eqn:Hp; cbn; [ | exact IH].
    rewrite Hp. now f_equal.
  - apply List.filter_app.
  - apply List.filter_length_le.
Qed.

(** ** More on [main] *)

Lemma count_result_line (s : summary) (out : list string) (r : result) :
  exists detail,
    snd (count_result (s, out) r)
    = out ++ [tag (categorize r) +:+ fst (fst r) +:+ " -> " +:+ detail].
Proof.
  destruct r as [[path file_id] err]. unfold count_result.
  destruct (categorize (path, file_id, err)); cbn [snd fst tag];
    eexists; reflexivity.
Qed.

Lemma fold_count_lines (results : list result) :
  forall st : summary * list string,
  exists lines,
    snd (fold_left count_result results st) = snd st ++ lines
    /\ Forall2 (fun r line =>
                  exists detail,
                    line = tag (categorize r) +:+ fst (fst r) +:+ " -> " +:+ detail)
         results lines.
Proof.
  induction results as [ | r results IH]; intros st; cbn [fold_left].
  - exists []. split; [now rewrite app_nil_r | constructor].
  - destruct (IH (count_result st r)) as (lines & Hout & Hall).
    destruct st as [s out]. destruct (count_result_line s out r) as (detail & Hline).
    exists ((tag (categorize r) +:+ fst (fst r) +:+ " -> " +:+ detail) :: lines).
    split.
    + rewrite Hout, Hline. cbn [snd]. now rewrite <- app_assoc.
    + constructor; [now exists detail | exact Hall].
Qed.

Lemma fold_count_categories (results : list result) :
  forall st : summary * list string,
    ok (fst (fold_left count_result results st))
    = ok (fst st) + Z.of_nat (length (List.filter (has_category Ok) results))
    /\ skipped (fst (fold_left count_result results st))
       = skipped (fst st) + Z.of_nat (length (List.filter (has_category Skipped) results))
    /\ failed (fst (fold_left count_result results st))
       = failed (fst st) + Z.of_nat (length (List.filter (has_category Failed) results)).
Proof.
  induction results as [ | r results IH]; intros st; cbn [fold_left List.filter].
  - cbn. lia.
  - destruct (IH (count_result st r)) as (Hok & Hskipped & Hfailed).
    rewrite Hok, Hskipped, Hfailed. destruct st as [s out].
    pose proof (count_result_one s out r) as Hone. unfold has_category.
    destruct (categorize r); destruct Hone as (H1 & H2 & H3);
      cbn [fst length]; lia.
Qed.

(** The outcomes taken are those of the first files, one for one. *)
Lemma counted_prefix {A : Type} (g : A -> (exception + result) * world) (l : list A) :
  Forall2 (fun x r => fst (g x) = inr r)
    (firstn (length (counted (map fst (map g l)))) l)
    (counted (map fst (map g l))).
Proof.
  induction l as [ | x l IH]; cbn; [constructor | ].
  destruct (fst (g x)) as [e | r] eqn:Hx; cbn; [constructor | ].
  constructor; [exact Hx | exact IH].
Qed.

Lemma counted_stops (outcomes : list (exception + result)) :
  ~ Forall is_result outcomes -> (length (counted outcomes) < length outcomes)%nat.
Proof.
  induction outcomes as [ | [e | r] outcomes IH]; cbn; intros Hnot.
  - exfalso. apply Hnot. constructor.
  - lia.
  - assert (Hrest : ~ Forall is_result outcomes).
    { intros Hall. apply Hnot. constructor; [exact I | exact Hall]. }
    specialize (IH Hrest). lia.
Qed.

(** When every task returned, the loop took the records of all of them. *)
Lemma taken_all (runs : list ((exception + result) * world)) :
  Forall is_result (map fst runs) -> taken runs = map snd runs.
Proof.
  induction runs as [ | [[e | r] w] runs IH]; cbn; intros Hall.
  - reflexivity.
  - inversion Hall as [ | ? ? Hhead _]. destruct Hhead.
  - f_equal. apply IH. now inversion Hall.
Qed.

Lemma Forall2_compose {A B C : Type} (R : A -> B -> Prop) (S : B -> C -> Prop)
    (l1 : list A) (l2 : list B) (l3 : list C) :
  Forall2 R l1 l2 -> Forall2 S l2 l3 ->
  Forall2 (fun x z => exists y, R x y /\ S y z) l1 l3.
Proof.
  intros H12. revert l3. induction H12 as [ | x y l1 l2 Hxy _ IH]; intros l3 H23;
    inversion H23; subst; constructor; eauto.
Qed.

Section MainMore.

Variable float : string -> option Q.

Lemma task_path (a : args) (h : host) (p : entry) (r : result) :
  fst (task float a h p) = inr r -> fst (fst r) = entry_path p.
Proof.
  unfold task, upload_with_retries. revert r.
  apply (upload_loop_induction float (task_env h (entry_path p)) (entry_path p)
           (retries a) (backoff a) (chunk a)
           (fun _ _ rw => forall r, fst rw = inr r -> fst (fst r) = entry_path p));
    cbn [fst]; intros; try discriminate; try assumption;
    match goal with
    | H : inr _ = inr _ |- _ => injection H as <-; reflexivity
    | _ => auto
    end.
Qed.

(** X14.  When there are files to upload, [main] prints a first line, then
    one line per file whose result it took, in the order of the listing,
    each made of the tag of the result's category, the file's path and
    " -> "; nothing goes to stderr.  When every task returned there is one
    such line for each file and then a last line; when a task raised there
    are fewer lines than files and nothing after them. *)
Theorem one_line_per_file (a : args) (h : host) :
  root_exists h = true ->
  root_is_dir h = true ->
  make_client_raises h = None ->
  iter_files (rglob h) <> [] ->
  exists banner lines,
    Forall2 (fun p line =>
               exists r detail,
                 fst (task float a h p) = inr r
                 /\ line = tag (categorize r) +:+ entry_path p +:+ " -> " +:+ detail)
      (firstn (length lines) (iter_files (rglob h))) lines
    /\ (length lines <= length (iter_files (rglob h)))%nat
    /\ stderr (main float a h) = []
    /\ (Forall is_result (outcomes_of float a h) ->
        exists done,
          stdout (main float a h) = banner :: lines ++ [done]
          /\ length lines = length (iter_files (rglob h))
          /\ length (stdout (main float a h)) = (length (iter_files (rglob h)) + 2)%nat)
    /\ (~ Forall is_result (outcomes_of float a h) ->
        stdout (main float a h) = banner :: lines
        /\ (length lines < length (iter_files (rglob h)))%nat).
Proof.
  intros Hexists Hdir Hclient Hfiles.
  pose proof (run_pool_raised float a h) as Hraised.
  pose proof (counted_all (outcomes_of float a h)) as Hall.
  pose proof (counted_stops (outcomes_of float a h)) as Hstops.
  pose proof (counted_length (outcomes_of float a h)) as Hshort.
  unfold main. rewrite Hexists, Hdir, Hclient. cbn [negb orb].
  unfold outcomes_of in *.
  destruct (iter_files (rglob h)) as [ | p files] eqn:Hlist; [contradiction | ].
  destruct (run_pool_fields float a h (p :: files)) as (_ & Hprinted & _).
  destruct (fold_count_lines
              (counted (map fst (map (task float a h) (p :: files)))) (summary0, []))
    as (lines & Hout & Hlines).
  rewrite count_results_fold, Hout in Hprinted. cbn [snd app] in Hprinted.
  pose proof (Forall2_length _ _ _ Hlines) as Hlength.
  rewrite !length_map in Hshort, Hstops.
  eexists _, lines. split; [ | split; [lia | split; [ | split]]].
  - rewrite <- Hlength.
    eapply Forall2_impl;
      [exact (Forall2_compose _ _ _ _ _
                (counted_prefix (task float a h) (p :: files)) Hlines) | ].
    intros p' line (r & Hr & detail & ->). exists r, detail.
    split; [exact Hr | ]. now rewrite (task_path a h p' r Hr).
  - destruct (raised (run_pool float a h (p :: files))); reflexivity.
  - intros Hdone. destruct (Hall Hdone) as (Hc & Hl & _).
    apply Hraised in Hdone. rewrite Hdone, Hprinted. cbn [stdout].
    eexists. split; [reflexivity | ].
    rewrite Hc, Hl, !length_map in Hlength. split; [now symmetry | ].
    cbn [length] in Hlength |- *. rewrite length_app. cbn [length]. lia.
  - intros Hnot. specialize (Hstops Hnot).
    destruct (raised (run_pool float a h (p :: files))) as [e | ] eqn:He.
    + cbn [stdout]. rewrite Hprinted. split; [reflexivity | lia].
    + exfalso. apply Hnot. now apply Hraised.
Qed.

(** X15.  After the pool has run, each of the counters [ok], [skipped] and
    [failed] is the number of results of its category among the outcomes
    taken, which are all the results when every task returned. *)
Theorem counters_are_category_counts (a : args) (h : host) (files : list entry) :
  ok (counters (run_pool float a h files))
  = Z.of_nat (length (List.filter (has_category Ok)
                        (counted (map fst (map (task float a h) files)))))
  /\ skipped (counters (run_pool float a h files))
     = Z.of_nat (length (List.filter (has_category Skipped)
                           (counted (map fst (map (task float a h) files)))))
  /\ failed (counters (run_pool float a h files))
     = Z.of_nat (length (List.filter (has_category Failed)
                           (counted (map fst (map (task float a h) files)))))
  /\ (Forall is_result (map fst (map (task float a h) files)) ->
      counted (map fst (map (task float a h) files))
      = returned (map fst (map (task float a h) files))
      /\ map inr (returned (map fst (map (task float a h) files)))
         = map fst (map (task float a h) files)).
Proof.
  destruct (run_pool_fields float a h files) as (-> & _).
  rewrite count_results_fold.
  destruct (fold_count_categories (counted (map fst (map (task float a h) files)))
              (summary0, []))
    as (Hok & Hskipped & Hfailed).
  rewrite Hok, Hskipped, Hfailed. cbn [fst summary0 ok skipped failed].
  split; [lia | ]. split; [lia | ]. split; [lia | ].
  intros Hall. destruct (counted_all _ Hall) as (Hc & _ & Hm). now split.
Qed.

(** X22.  A result moves exactly one of the counters [ok], [skipped],
    [failed], by one, so after the pool has run the three counters add up
    to the number of outcomes taken, which is at most the number of files
    submitted.  The pool ends without an exception exactly when every task
    returned, and then the counters add up to the number of files
    submitted and the record of every task is kept. *)
Theorem counters_sum_when_complete (a : args) (h : host) (files : list entry) :
  (forall (s : summary) (out : list string) (r : result),
     let s' := fst (count_result (s, out) r) in
     (ok s' = ok s + 1 /\ skipped s' = skipped s /\ failed s' = failed s)
     \/ (ok s' = ok s /\ skipped s' = skipped s + 1 /\ failed s' = failed s)
     \/ (ok s' = ok s /\ skipped s' = skipped s /\ failed s' = failed s + 1))
  /\ ok (counters (run_pool float a h files))
     + skipped (counters (run_pool float a h files))
     + failed (counters (run_pool float a h files))
     = Z.of_nat (length (counted (map fst (map (task float a h) files))))
  /\ (length (counted (map fst (map (task float a h) files))) <= length files)%nat
  /\ (raised (run_pool float a h files) = None
      <-> Forall is_result (map fst (map (task float a h) files)))
  /\ (raised (run_pool float a h files) = None ->
      ok (counters (run_pool float a h files))
      + skipped (counters (run_pool float a h files))
      + failed (counters (run_pool float a h files))
      = Z.of_nat (length files)
      /\ length (pool_worlds (run_pool float a h files)) = length files).
Proof.
  destruct (run_pool_fields float a h files) as (Hcounters & _ & Hraised & Hworlds).
  pose proof (counted_length (map fst (map (task float a h) files))) as Hshort.
  rewrite !length_map in Hshort.
  assert (Hsum : ok (counters (run_pool float a h files))
                 + skipped (counters (run_pool float a h files))
                 + failed (counters (run_pool float a h files))
                 = Z.of_nat (length (counted (map fst (map (task float a h) files))))).
  { rewrite Hcounters, count_results_fold, fold_count_total. cbn. lia. }
  split; [ | split; [exact Hsum | split; [exact Hshort | split]]].
  - intros s out r s'. subst s'.
    pose proof (count_result_one s out r) as H.
    destruct (categorize r); auto.
  - rewrite Hraised. apply count_results_None.
  - intros Hnone. rewrite Hraised in Hnone. apply count_results_None in Hnone.
    destruct (counted_all _ Hnone) as (Hc & Hl & _).
    rewrite Hsum, Hworlds, (taken_all _ Hnone), Hc, Hl, !length_map. split; reflexivity.
Qed.

Lemma main_status_all (a : args) (h : host) :
  status (main float a h)
  = if negb (root_exists h) || negb (root_is_dir h) then inr 2
    else match make_client_raises h with
         | Some e => inl e
         | None =>
             match raised (run_pool float a h (iter_files (rglob h))) with
             | Some e => inl e
             | None =>
                 inr (if failed (counters (run_pool float a h (iter_files (rglob h))))
                         =? 0
                      then 0 else 1)
             end
         end.
Proof.
  destruct (negb (root_exists h) || negb (root_is_dir h)) eqn:Hroot.
  - unfold main. now rewrite Hroot.
  - apply orb_false_elim in Hroot as [Hexists Hdir].
    apply negb_false_iff in Hexists, Hdir.
    destruct (make_client_raises h) as [e | ] eqn:Hclient.
    + unfold main. now rewrite Hexists, Hdir, Hclient.
    + now apply main_status.
Qed.

(** X16.  [main] returns 2 exactly when the root does not exist or is not
    a directory, and then prints one line on stderr, nothing on stdout, and
    runs no task; when the root is valid and [make_client] raises, that
    exception escapes and nothing is printed or run; every value returned
    is 0, 1 or 2. *)
Theorem main_return_codes (a : args) (h : host) :
  (status (main float a h) = inr 2
   <-> root_exists h = false \/ root_is_dir h = false)
  /\ (forall e,
        root_exists h = true -> root_is_dir h = true ->
        make_client_raises h = Some e ->
        main float a h
        = {| stdout := []; stderr := []; status := inl e; task_worlds := [] |})
  /\ (forall c, status (main float a h) = inr c -> c = 0 \/ c = 1 \/ c = 2)
  /\ (root_exists h = false \/ root_is_dir h = false ->
      stdout (main float a h) = []
      /\ stderr (main float a h) = ["invalid local folder: " +:+ root h]
      /\ task_worlds (main float a h) = []).
Proof.
  split; [ | split; [ | split]].
  - rewrite main_status_all.
    destruct (root_exists h), (root_is_dir h); cbn [negb orb]; try tauto.
    destruct (make_client_raises h) as [e | ];
      [ | destruct (raised _); [ | destruct (failed _ =? 0)]];
      (split; [discriminate | intros [ | ]; discriminate]).
  - intros e Hexists Hdir Hclient. unfold main.
    now rewrite Hexists, Hdir, Hclient.
  - intros c. rewrite main_status_all.
    destruct (negb (root_exists h) || negb (root_is_dir h)); [intros [= <-]; auto | ].
    destruct (make_client_raises h) as [e | ]; [discriminate | ].
    destruct (raised _); [discriminate | ].
    destruct (failed _ =? 0); intros [= <-]; auto.
  - intros Hroot. unfold main.
    replace (negb (root_exists h) || negb (root_is_dir h)) with true;
      [repeat split | ].
    destruct Hroot as [-> | ->]; [reflexivity | now rewrite orb_true_r].
Qed.

End MainMore.

(** ** Defaults and credentials *)

(** X17.  [DEFAULT_WORKERS] is 8 when the CPU count is unknown or at least
    2, and 4 on a single CPU; for any count it lies between 4 and 8. *)
Theorem default_workers_range (cpu_count : option Z) :
  (cpu_count = None -> DEFAULT_WORKERS cpu_count = 8)
  /\ (cpu_count = Some 1 -> DEFAULT_WORKERS cpu_count = 4)
  /\ (forall n, cpu_count = Some n -> 2 <= n -> DEFAULT_WORKERS cpu_count = 8)
  /\ (forall n, cpu_count = Some n -> 0 <= n -> 4 <= DEFAULT_WORKERS cpu_count <= 8).
Proof.
  unfold DEFAULT_WORKERS. split; [now intros -> | ]. split; [now intros -> | ].
  split; intros n -> Hn; destruct (n =? 0) eqn:Hz; lia.
Qed.

Section Credentials.

Context {V A C : Type}.
Variable W : credentials V A C.

(** X18.  [load_jwt]: a [--jwt-config] that is not empty is read with
    [from_settings_file], whatever the environment holds; without it, a
    missing or empty [JWT_CONFIG_BASE_64] raises the [RuntimeError] of line
    25; a value that cannot be decoded raises the [RuntimeError] of line 29,
    whatever the decoder raised; an exception of [eval] passes through
    unchanged; otherwise the settings come from the evaluated dictionary.
    A [RuntimeError] of [load_jwt] carries one of the two messages and is
    never raised when [--jwt-config] is given. *)
Theorem load_jwt_cases (jwt_config_file : option string) :
  (forall path, jwt_config_file = Some path -> path <> ""%string ->
     load_jwt W jwt_config_file = propagate (from_settings_file W path))
  /\ (Py.truthy_opt jwt_config_file = false ->
      Py.truthy_opt (getenv_JWT_CONFIG_BASE_64 W) = false ->
      load_jwt W jwt_config_file
      = inl (RuntimeError "Provide --jwt-config or set JWT_CONFIG_BASE_64."))
  /\ (forall b64 e,
        Py.truthy_opt jwt_config_file = false ->
        getenv_JWT_CONFIG_BASE_64 W = Some b64 -> b64 <> ""%string ->
        b64decode_utf8 W b64 = inl e ->
        load_jwt W jwt_config_file
        = inl (RuntimeError "JWT_CONFIG_BASE_64 is not valid base64 JSON"))
  /\ (forall b64 json_str e,
        Py.truthy_opt jwt_config_file = false ->
        getenv_JWT_CONFIG_BASE_64 W = Some b64 -> b64 <> ""%string ->
        b64decode_utf8 W b64 = inr json_str ->
        py_eval W json_str = inl e ->
        load_jwt W jwt_config_file = inl (Propagated e))
  /\ (forall b64 json_str d,
        Py.truthy_opt jwt_config_file = false ->
        getenv_JWT_CONFIG_BASE_64 W = Some b64 -> b64 <> ""%string ->
        b64decode_utf8 W b64 = inr json_str ->
        py_eval W json_str = inr d ->
        load_jwt W jwt_config_file = propagate (from_settings_dictionary W d))
  /\ (forall message,
        load_jwt W jwt_config_file = inl (RuntimeError message) ->
        Py.truthy_opt jwt_config_file = false
        /\ (message = "Provide --jwt-config or set JWT_CONFIG_BASE_64."%string
            \/ message = "JWT_CONFIG_BASE_64 is not valid base64 JSON"%string)).
Proof.
  unfold load_jwt. split; [ | split; [ | split; [ | split; [ | split]]]].
  - intros path -> Hne. destruct path; [congruence | reflexivity].
  - intros -> ->. reflexivity.
  - intros b64 e -> -> Hne He. destruct b64; [congruence | ]. cbn. now rewrite He.
  - intros b64 json_str e -> -> Hne Hjson He. destruct b64; [congruence | ].
    cbn. now rewrite Hjson, He.
  - intros b64 json_str d -> -> Hne Hjson Hd. destruct b64; [congruence | ].
    cbn. now rewrite Hjson, Hd.
  - intros message. destruct (Py.truthy_opt jwt_config_file).
    + destruct (from_settings_file W _); discriminate.
    + destruct (negb (Py.truthy_opt (getenv_JWT_CONFIG_BASE_64 W))).
      * intros [= <-]. auto.
      * destruct (b64decode_utf8 W _) as [e | json_str]; [intros [= <-]; auto | ].
        destruct (py_eval W json_str) as [e | d]; [discriminate | ].
        destruct (from_settings_dictionary W d); discriminate.
Qed.

(** X19.  [make_client]: an error of [load_jwt] passes through and no
    client is made; otherwise an exception of [Client(auth)] passes
    through; otherwise the client itself is returned when [--as-user] is
    missing or empty, and when it is given the outcome is that of
    [client.as_user] on its text, the exception it raises included. *)
Theorem make_client_cases (jwt_config_file as_user : option string) :
  (forall err,
     load_jwt W jwt_config_file = inl err ->
     make_client W jwt_config_file as_user = inl err)
  /\ (forall auth e,
        load_jwt W jwt_config_file = inr auth ->
        new_client W auth = inl e ->
        make_client W jwt_config_file as_user = inl (Propagated e))
  /\ (forall auth client,
        load_jwt W jwt_config_file = inr auth ->
        new_client W auth = inr client ->
        Py.truthy_opt as_user = false ->
        make_client W jwt_config_file as_user = inr client)
  /\ (forall auth client user,
        load_jwt W jwt_config_file = inr auth ->
        new_client W auth = inr client ->
        as_user = Some user -> user <> ""%string ->
        make_client W jwt_config_file as_user
        = propagate (client_as_user W client user))
  /\ (forall client,
        make_client W jwt_config_file as_user = inr client ->
        exists auth, load_jwt W jwt_config_file = inr auth).
Proof.
  unfold make_client. split; [ | split; [ | split; [ | split]]].
  - intros err ->. reflexivity.
  - intros auth e -> ->. reflexivity.
  - intros auth client -> -> ->. reflexivity.
  - intros auth client user -> -> -> Hne. destruct user; [congruence | reflexivity].
  - intros client. destruct (load_jwt W jwt_config_file) as [err | auth];
      [discriminate | eauto].
Qed.

End Credentials.

(** X20.  With a valid root, no [--jwt-config] and no [JWT_CONFIG_BASE_64],
    [main] ends by the [RuntimeError] of [load_jwt]: nothing is printed,
    no file is listed and no task runs. *)
Theorem missing_credentials_stop_main {V A C : Type} (W : credentials V A C)
    (float : string -> option Q) (jwt_config_file as_user : option string)
    (a : args) (h : host) :
  make_client_raises h = make_client_outcome W jwt_config_file as_user ->
  root_exists h = true ->
  root_is_dir h = true ->
  Py.truthy_opt jwt_config_file = false ->
  Py.truthy_opt (getenv_JWT_CONFIG_BASE_64 W) = false ->
  main float a h
  = {| stdout := []; stderr := [];
       status := inl (OtherException "RuntimeError");
       task_worlds := [] |}.
Proof.
  intros Hclient Hexists Hdir Hcfg Henv. unfold main.
  rewrite Hexists, Hdir, Hclient. cbn [negb orb].
  unfold make_client_outcome, make_client, load_jwt. rewrite Hcfg, Henv. reflexivity.
Qed.

(** ** The further properties at work on concrete worlds *)

Lemma always_raising_within (size : Z) (b : Byte.byte) (chunk_size : Z) :
  always_transient_within float_small (always_raising connection_error size b)
    chunk_size time_sleep_limit.
Proof.
  intros w. unfold try_upload. cbn.
  destruct (size <=? DIRECT_UPLOAD_MAX); exists connection_error; eexists; exists None, None;
    (split; [reflexivity | split; [reflexivity | exact I]]).
Defined.

Lemma always_raising_no_hint (size : Z) (b : Byte.byte) (chunk_size : Z) :
  always_transient_no_hint float_small (always_raising connection_error size b) chunk_size.
Proof.
  intros w. unfold try_upload. cbn.
  destruct (size <=? DIRECT_UPLOAD_MAX); do 3 eexists; split; reflexivity.
Defined.

Lemma failing_first_succeeds_at (k : nat) (chunk_size : Z) :
  succeeds_at float_small (failing_first k unavailable 10 Byte.x00) chunk_size
    time_sleep_limit world0 k "id-1".
Proof.
  split; intros w Hw; unfold try_upload;
    change (stat_size (failing_first k unavailable 10 Byte.x00) (tries w))
      with (@inr exception Z 10);
    change (10 <=? DIRECT_UPLOAD_MAX) with true;
    unfold upload_small, failing_first; cbn [folder_upload]; cbn [tries world0 Nat.add] in Hw.
  - apply Nat.ltb_lt in Hw. rewrite Hw.
    exists unavailable. eexists. exists (Some 503), (Some 2%Q).
    split; [reflexivity | ]. split; [reflexivity | ]. split; discriminate.
  - subst k. rewrite Nat.ltb_irrefl. eexists. reflexivity.
Defined.

Lemma file_gone_stat_fails : stat_always_fails file_gone.
Proof. intros k. eexists. reflexivity. Defined.

(** The default base, doubled up to the second retry, is within what
    [time.sleep] accepts. *)
Lemma default_backoff_within : backoff_within DEFAULT_BACKOFF 2 time_sleep_limit.
Proof. split; [discriminate | ]. split; [lia | discriminate]. Defined.

(** X2 with no retry allowed, one pass whatever happens; and with two
    retries that all fail, two bytes drawn for three passes. *)
Lemma upload_passes_and_sleeps_witness :
  0 <= 0
  /\ tries (snd (upload_with_retries float_small
                   (always_raising connection_error 10 Byte.x00)
                   "a.jpg" 0 DEFAULT_BACKOFF DEFAULT_CHUNK world0))
     = (tries world0 + 1)%nat
  /\ fst (upload_with_retries float_small (always_raising connection_error 10 Byte.x00)
            "a.jpg" 2 DEFAULT_BACKOFF DEFAULT_CHUNK world0)
     = inr ("a.jpg"%string, None, Some "failed after 2 retries: ConnectionError"%string)
  /\ (draws (snd (upload_with_retries float_small
                    (always_raising connection_error 10 Byte.x00)
                    "a.jpg" 2 DEFAULT_BACKOFF DEFAULT_CHUNK world0))
      + tries world0 + 1
      = draws world0
        + tries (snd (upload_with_retries float_small
                        (always_raising connection_error 10 Byte.x00)
                        "a.jpg" 2 DEFAULT_BACKOFF DEFAULT_CHUNK world0)))%nat.
Proof.
  assert (Hzero : 0 <= 0) by lia.
  destruct (upload_passes_and_sleeps float_small
              (always_raising connection_error 10 Byte.x00)
              "a.jpg" 0 DEFAULT_BACKOFF DEFAULT_CHUNK world0)
    as (_ & _ & Honce & _).
  destruct (upload_passes_and_sleeps float_small
              (always_raising connection_error 10 Byte.x00)
              "a.jpg" 2 DEFAULT_BACKOFF DEFAULT_CHUNK world0)
    as (_ & _ & _ & _ & _ & _ & _ & Hreturned & _).
  split; [exact Hzero | ]. split; [exact (Honce Hzero) | ].
  split; [reflexivity | ]. exact (Hreturned _ eq_refl).
Defined.

(** X3 with two failures before the upload: scenario B of the
    specification. *)
Lemma success_after_retries_witness :
  sleep_accepts (failing_first 2 unavailable 10 Byte.x00) time_sleep_limit
  /\ backoff_within DEFAULT_BACKOFF (Z.of_nat 2) time_sleep_limit
  /\ succeeds_at float_small (failing_first 2 unavailable 10 Byte.x00) DEFAULT_CHUNK
       time_sleep_limit world0 2 "id-1"
  /\ Z.of_nat 2 <= DEFAULT_RETRIES
  /\ fst (upload_with_retries float_small (failing_first 2 unavailable 10 Byte.x00)
            "a.jpg" DEFAULT_RETRIES DEFAULT_BACKOFF DEFAULT_CHUNK world0)
     = inr ("a.jpg"%string, Some "id-1"%string, None)
  /\ tries (snd (upload_with_retries float_small (failing_first 2 unavailable 10 Byte.x00)
                   "a.jpg" DEFAULT_RETRIES DEFAULT_BACKOFF DEFAULT_CHUNK world0))
     = (tries world0 + 2 + 1)%nat
  /\ length (sleeps (log (snd (upload_with_retries float_small
                                 (failing_first 2 unavailable 10 Byte.x00)
                                 "a.jpg" DEFAULT_RETRIES DEFAULT_BACKOFF DEFAULT_CHUNK
                                 world0))))
     = (length (sleeps (log world0)) + 2)%nat.
Proof.
  assert (Hle : Z.of_nat 2 <= DEFAULT_RETRIES) by (unfold DEFAULT_RETRIES; lia).
  assert (Haccepts : sleep_accepts (failing_first 2 unavailable 10 Byte.x00)
                       time_sleep_limit)
    by (apply cpython_time_sleep_accepts; reflexivity).
  split; [exact Haccepts | ]. split; [exact default_backoff_within | ].
  split; [apply failing_first_succeeds_at | ]. split; [exact Hle | ].
  apply (success_after_retries float_small (failing_first 2 unavailable 10 Byte.x00)
           "a.jpg" DEFAULT_RETRIES DEFAULT_BACKOFF DEFAULT_CHUNK time_sleep_limit
           world0 2 "id-1"
           Haccepts default_backoff_within (failing_first_succeeds_at 2 DEFAULT_CHUNK) Hle).
Defined.

(** X4 on a conflict: the result is counted as skipped. *)
Lemma upload_result_category_witness :
  fst (upload_with_retries float_small (always_raising conflict 10 Byte.x00) "a.jpg"
         DEFAULT_RETRIES DEFAULT_BACKOFF DEFAULT_CHUNK world0)
  = inr ("a.jpg"%string, None, Some "skipped: 409 Conflict (name exists)"%string)
  /\ categorize ("a.jpg"%string, None, Some "skipped: 409 Conflict (name exists)"%string)
     = Skipped.
Proof.
  split; [reflexivity | ].
  apply (upload_result_category float_small (always_raising conflict 10 Byte.x00) "a.jpg"
           DEFAULT_RETRIES DEFAULT_BACKOFF DEFAULT_CHUNK world0 _ eq_refl).
  now left.
Defined.

(** X5 with two retries: sleeps of 0.75 * 1 and 0.75 * 2 seconds, times
    the jitter 0.75 of the byte 0. *)
Lemma exponential_schedule_witness :
  0 <= 2
  /\ sleep_accepts (always_raising connection_error 10 Byte.x00) time_sleep_limit
  /\ backoff_within DEFAULT_BACKOFF 2 time_sleep_limit
  /\ always_transient_no_hint float_small (always_raising connection_error 10 Byte.x00)
       DEFAULT_CHUNK
  /\ sleeps (log (snd (upload_with_retries float_small
                         (always_raising connection_error 10 Byte.x00)
                         "a.jpg" 2 DEFAULT_BACKOFF DEFAULT_CHUNK world0)))
     = rev (schedule (always_raising connection_error 10 Byte.x00) DEFAULT_BACKOFF 0
              (draws world0) (Z.to_nat 2))
       ++ sleeps (log world0).
Proof.
  assert (Hpos : 0 <= 2) by lia.
  assert (Haccepts : sleep_accepts (always_raising connection_error 10 Byte.x00)
                       time_sleep_limit)
    by (apply cpython_time_sleep_accepts; reflexivity).
  split; [exact Hpos | ]. split; [exact Haccepts | ].
  split; [exact default_backoff_within | ]. split; [apply always_raising_no_hint | ].
  apply (exponential_schedule float_small (always_raising connection_error 10 Byte.x00)
           "a.jpg" 2 DEFAULT_BACKOFF DEFAULT_CHUNK time_sleep_limit world0 Hpos
           Haccepts default_backoff_within
           (always_raising_no_hint 10 Byte.x00 DEFAULT_CHUNK)).
Defined.


(** X7 on a file that is gone, with two retries. *)
Lemma stat_failure_is_retried_without_upload_witness :
  0 <= 2
  /\ stat_always_fails file_gone
  /\ sleep_accepts file_gone time_sleep_limit
  /\ backoff_within DEFAULT_BACKOFF 2 time_sleep_limit
  /\ uploads (log (snd (upload_with_retries float_small file_gone "a.jpg" 2
                          DEFAULT_BACKOFF DEFAULT_CHUNK world0)))
     = uploads (log world0)
  /\ tries (snd (upload_with_retries float_small file_gone "a.jpg" 2
                   DEFAULT_BACKOFF DEFAULT_CHUNK world0))
     = (tries world0 + Z.to_nat 2 + 1)%nat.
Proof.
  assert (Hpos : 0 <= 2) by lia.
  assert (Haccepts : sleep_accepts file_gone time_sleep_limit)
    by (apply cpython_time_sleep_accepts; reflexivity).
  destruct (stat_failure_is_retried_without_upload float_small file_gone "a.jpg" 2
              DEFAULT_BACKOFF DEFAULT_CHUNK time_sleep_limit world0 Hpos
              file_gone_stat_fails Haccepts default_backoff_within)
    as (Huploads & Htries & _).
  split; [exact Hpos | ]. split; [exact file_gone_stat_fails | ].
  split; [exact Haccepts | ]. split; [exact default_backoff_within | ].
  split; [exact Huploads | exact Htries].
Defined.

(** X8 with the default base, from the third to the fourth attempt. *)
Lemma delay_doubles_witness :
  (0 <= DEFAULT_BACKOFF)%Q
  /\ (0 <= delay_of 3 DEFAULT_BACKOFF None)%Q
  /\ (delay_of 3 DEFAULT_BACKOFF None <= delay_of (3 + 1) DEFAULT_BACKOFF None)%Q.
Proof.
  assert (Hbase : (0 <= DEFAULT_BACKOFF)%Q) by discriminate.
  split; [exact Hbase | ].
  apply (delay_doubles 3 DEFAULT_BACKOFF 0%Q). exact Hbase.
Defined.

(** X9 on the first retry with the default base. *)
Lemma backoff_sleep_bounds_witness :
  delay_overflows 1 None = false
  /\ (0 <= delay_of 1 DEFAULT_BACKOFF None)%Q
  /\ exists d,
       sleep_calls (log (snd (backoff_sleep (always_raising connection_error 10 Byte.x00)
                                1 DEFAULT_BACKOFF None world0)))
       = d :: sleep_calls (log world0)
       /\ ((3 # 4) * delay_of 1 DEFAULT_BACKOFF None <= d)%Q
       /\ (d <= (5 # 4) * delay_of 1 DEFAULT_BACKOFF None)%Q.
Proof.
  assert (Hdelay : (0 <= delay_of 1 DEFAULT_BACKOFF None)%Q) by discriminate.
  split; [reflexivity | ]. split; [exact Hdelay | ].
  destruct (backoff_sleep_bounds (always_raising connection_error 10 Byte.x00) 1
              DEFAULT_BACKOFF None world0 eq_refl Hdelay)
    as (d & _ & Hcalls & Hlo & Hhi & _).
  exists d. split; [exact Hcalls | ]. split; [exact Hlo | exact Hhi].
Defined.

(** X11 on a 503: a [Date] header changes nothing. *)
Lemma verdict_reads_retry_after_only_witness :
  headers_get headers_2 "Retry-After" = headers_get headers_2_date "Retry-After"
  /\ is_retryable float_small (BoxAPIException "BoxAPIException" 503 (Some headers_2))
     = is_retryable float_small
         (BoxAPIException "BoxServerError" 503 (Some headers_2_date)).
Proof.
  assert (Hsame : headers_get headers_2 "Retry-After"
                  = headers_get headers_2_date "Retry-After") by reflexivity.
  split; [exact Hsame | ].
  apply (verdict_reads_retry_after_only float_small "BoxAPIException" "BoxServerError"
           503 headers_2 headers_2_date Hsame).
Defined.

(** X14 on the root with three files. *)
Lemma one_line_per_file_witness :
  root_exists host3 = true
  /\ root_is_dir host3 = true
  /\ make_client_raises host3 = None
  /\ iter_files (rglob host3) <> []
  /\ Forall is_result (outcomes_of float_small args0 host3)
  /\ length (stdout (main float_small args0 host3)) = (3 + 2)%nat.
Proof.
  assert (Hfiles : iter_files (rglob host3) <> []) by discriminate.
  assert (Hall : Forall is_result (outcomes_of float_small args0 host3)).
  { vm_compute. repeat (constructor; [exact I | ]). constructor. }
  destruct (one_line_per_file float_small args0 host3 eq_refl eq_refl eq_refl Hfiles)
    as (banner & lines & _ & _ & _ & Hdone & _).
  destruct (Hdone Hall) as (last_line & _ & _ & Hlength).
  split; [reflexivity | ]. split; [reflexivity | ]. split; [reflexivity | ].
  split; [exact Hfiles | ]. split; [exact Hall | exact Hlength].
Defined.

(** X15 on the root with three files. *)
Lemma counters_are_category_counts_witness :
  Forall is_result (map fst (map (task float_small args0 host3)
                               (iter_files (rglob host3))))
  /\ counted (map fst (map (task float_small args0 host3) (iter_files (rglob host3))))
     = returned (map fst (map (task float_small args0 host3) (iter_files (rglob host3)))).
Proof.
  assert (Hall : Forall is_result (map fst (map (task float_small args0 host3)
                                              (iter_files (rglob host3))))).
  { vm_compute. repeat (constructor; [exact I | ]). constructor. }
  destruct (counters_are_category_counts float_small args0 host3
              (iter_files (rglob host3)))
    as (_ & _ & _ & Hdone).
  split; [exact Hall | ]. exact (proj1 (Hdone Hall)).
Defined.

(** X16 on a root that does not exist. *)
Lemma main_return_codes_witness :
  (root_exists host_missing = false \/ root_is_dir host_missing = false)
  /\ status (main float_small args0 host_missing) = inr 2
  /\ stdout (main float_small args0 host_missing) = []
  /\ stderr (main float_small args0 host_missing)
     = ["invalid local folder: /home/u/nowhere"%string]
  /\ task_worlds (main float_small args0 host_missing) = [].
Proof.
  assert (Hroot : root_exists host_missing = false \/ root_is_dir host_missing = false)
    by (left; reflexivity).
  destruct (main_return_codes float_small args0 host_missing)
    as (Hcode & _ & _ & Hquiet).
  split; [exact Hroot | ]. split; [apply Hcode; exact Hroot | ].
  exact (Hquiet Hroot).
Defined.

(** X17 on one, two and sixty-four CPUs. *)
Lemma default_workers_range_witness :
  DEFAULT_WORKERS (Some 1) = 4
  /\ DEFAULT_WORKERS (Some 2) = 8
  /\ 4 <= DEFAULT_WORKERS (Some 64) <= 8.
Proof.
  split; [ | split].
  - apply (default_workers_range (Some 1)). reflexivity.
  - apply (default_workers_range (Some 2)) with (n := 2); [reflexivity | lia].
  - apply (default_workers_range (Some 64)) with (n := 64); [reflexivity | lia].
Defined.

(** X18: an environment variable that decodes, one that does not, and
    none at all. *)
Lemma load_jwt_cases_witness :
  load_jwt (credentials0 (Some "e30="%string)) None = inr "dict:{}"%string
  /\ load_jwt (credentials0 (Some "???"%string)) (Some ""%string)
     = inl (RuntimeError "JWT_CONFIG_BASE_64 is not valid base64 JSON")
  /\ load_jwt (credentials0 None) None
     = inl (RuntimeError "Provide --jwt-config or set JWT_CONFIG_BASE_64.")
  /\ load_jwt (credentials0 (Some "???"%string)) (Some "app.json"%string)
     = inr "file:app.json"%string.
Proof.
  destruct (load_jwt_cases (credentials0 (Some "e30="%string)) None)
    as (_ & _ & _ & _ & Hdict & _).
  destruct (load_jwt_cases (credentials0 (Some "???"%string)) (Some ""%string))
    as (_ & _ & Hdecode & _).
  destruct (load_jwt_cases (credentials0 None) None) as (_ & Hmissing & _).
  destruct (load_jwt_cases (credentials0 (Some "???"%string)) (Some "app.json"%string))
    as (Hfile & _).
  split; [ | split; [ | split]].
  - apply (Hdict "e30="%string "{}"%string "{}"%string); (reflexivity || discriminate).
  - apply (Hdecode "???"%string (OtherException "Error"));
      (reflexivity || discriminate).
  - apply Hmissing; reflexivity.
  - apply (Hfile "app.json"%string); (reflexivity || discriminate).
Defined.

(** X19: acting as user 42, where [as_user] raises on the text it is
    given, and as nobody in particular. *)
Lemma make_client_cases_witness :
  make_client (credentials0 None) (Some "app.json"%string) (Some "42"%string)
  = inl (Propagated (OtherException "AttributeError"))
  /\ make_client (credentials0 None) (Some "app.json"%string) (Some ""%string)
     = inr "client:file:app.json"%string
  /\ make_client (credentials0 None) None (Some "42"%string)
     = inl (RuntimeError "Provide --jwt-config or set JWT_CONFIG_BASE_64.").
Proof.
  destruct (make_client_cases (credentials0 None) (Some "app.json"%string)
              (Some "42"%string)) as (_ & _ & _ & Huser & _).
  destruct (make_client_cases (credentials0 None) (Some "app.json"%string)
              (Some ""%string)) as (_ & _ & Hplain & _).
  destruct (make_client_cases (credentials0 None) None (Some "42"%string))
    as (Herr & _).
  split; [ | split].
  - apply (Huser "file:app.json"%string "client:file:app.json"%string "42"%string);
      (reflexivity || discriminate).
  - apply (Hplain "file:app.json"%string); reflexivity.
  - apply Herr. reflexivity.
Defined.

(** X20 on a machine with files to upload and no credentials. *)
Lemma missing_credentials_stop_main_witness :
  make_client_raises host_no_credentials = make_client_outcome (credentials0 None) None None
  /\ root_exists host_no_credentials = true
  /\ root_is_dir host_no_credentials = true
  /\ iter_files (rglob host_no_credentials) <> []
  /\ main float_small args0 host_no_credentials
     = {| stdout := []; stderr := [];
          status := inl (OtherException "RuntimeError");
          task_worlds := [] |}.
Proof.
  split; [reflexivity | ]. split; [reflexivity | ]. split; [reflexivity | ].
  split; [discriminate | ].
  apply (missing_credentials_stop_main (credentials0 None) float_small None None
           args0 host_no_credentials); reflexivity.
Defined.

(** X21 with two retries: scenario D of the specification. *)
Lemma retries_exhausted_within_witness :
  0 <= 2
  /\ sleep_accepts (always_raising connection_error 10 Byte.x00) time_sleep_limit
  /\ backoff_within DEFAULT_BACKOFF 2 time_sleep_limit
  /\ always_transient_within float_small (always_raising connection_error 10 Byte.x00)
       DEFAULT_CHUNK time_sleep_limit
  /\ exists e w',
       upload_with_retries float_small (always_raising connection_error 10 Byte.x00)
         "a.jpg" 2 DEFAULT_BACKOFF DEFAULT_CHUNK world0
       = (inr ("a.jpg"%string, None,
               Some ("failed after " +:+ Py.str 2 +:+ " retries: " +:+ type_name e)),
          w')
       /\ tries w' = (tries world0 + (Z.to_nat 2 + 1))%nat.
Proof.
  assert (Hpos : 0 <= 2) by lia.
  assert (Haccepts : sleep_accepts (always_raising connection_error 10 Byte.x00)
                       time_sleep_limit)
    by (apply cpython_time_sleep_accepts; reflexivity).
  split; [exact Hpos | ]. split; [exact Haccepts | ].
  split; [exact default_backoff_within | ]. split; [apply always_raising_within | ].
  destruct (retries_exhausted_within float_small
              (always_raising connection_error 10 Byte.x00)
              "a.jpg" 2 DEFAULT_BACKOFF DEFAULT_CHUNK time_sleep_limit world0 Hpos
              Haccepts default_backoff_within
              (always_raising_within 10 Byte.x00 DEFAULT_CHUNK))
    as (e & w' & Hres & _ & Htries & _).
  exists e, w'. split; [exact Hres | exact Htries].
Defined.

(** X22 on the root with three files: the counters add up to 3. *)
Lemma counters_sum_when_complete_witness :
  raised (run_pool float_small args0 host3 (iter_files (rglob host3))) = None
  /\ ok (counters (run_pool float_small args0 host3 (iter_files (rglob host3))))
     + skipped (counters (run_pool float_small args0 host3 (iter_files (rglob host3))))
     + failed (counters (run_pool float_small args0 host3 (iter_files (rglob host3))))
     = Z.of_nat (length (iter_files (rglob host3))).
Proof.
  assert (Hnone : raised (run_pool float_small args0 host3 (iter_files (rglob host3)))
                  = None) by reflexivity.
  destruct (counters_sum_when_complete float_small args0 host3
              (iter_files (rglob host3)))
    as (_ & _ & _ & _ & Hdone).
  split; [exact Hnone | exact (proj1 (Hdone Hnone))].
Defined.
